(** * pjxl/utils: closed-form statistical estimators

    A shallow embedding of [src/stats/misc.py] and
    [src/stats/inference/estimation/proportion.py], and the properties of
    these functions stated by the specification.

    Conventions of the embedding.

    - A finite Python [float] or [int] is a real number: rounding and
      overflow of binary64 are idealised away.  Python arithmetic on such
      numbers never yields [inf] or [nan]; where it cannot answer it raises
      ([ZeroDivisionError], [ValueError] from the [math] module).
    - A numpy scalar ([np.float64], what [scipy.stats] and the array
      reductions return) is a [num]: a real number or one of the IEEE
      special values, because numpy arithmetic does not raise on a zero
      divisor but answers [inf] or [nan].
    - A raised exception is the [Raise] branch of [result]; the
      specification's error kind InvalidArgument is Python's [ValueError].
    - [scipy.stats] is not part of the repository: its distribution functions
      are the fields of a [scipy_stats] value that every function using
      [st] takes as a parameter.
    - The strata of [strat_proportion] and [strat_confint] are
      one-dimensional numpy arrays, as annotated: [props] of [float64], the
      two size arrays of [int64], whose integer arithmetic ([np.sum], [**2],
      [- 1]) wraps around in 64 bits; a true division converts its integer
      operands to [float64] first.  The samples of [welch_ttest] are
      sequences of finite observations.
    - The [print] readout and the [DataFrame] labelling of the two tests are
      presentation: a test returns the record of the values it tabulates.
      The readout raises nothing on finite arguments, and the lift bounds it
      alone shows ([lift_lwr], [lift_upr]) are left out. *)

From Stdlib Require Import Reals Lra Lia ZArith String Ascii Bool List.
From Stdlib Require Import Permutation.
Import ListNotations.
Open Scope R_scope.

(** ** Python exceptions and results *)

Inductive exn : Type :=
| ValueError (msg : string)
| ZeroDivisionError
| OverflowError
| UnboundLocalError (name : string).

Inductive result (A : Type) : Type :=
| Ok (a : A)
| Raise (e : exn).

Arguments Ok {A} a.
Arguments Raise {A} e.

Definition bind {A B : Type} (c : result A) (k : A -> result B) : result B :=
  match c with
  | Ok a => k a
  | Raise e => Raise e
  end.

Notation "x <- c ;; k" := (bind c (fun x => k))
  (at level 61, c at next level, right associativity).

(** The specification's InvalidArgument: the call raised [ValueError]. *)
Definition InvalidArgument {A : Type} (r : result A) : Prop :=
  exists msg, r = Raise (ValueError msg).

(** The call returned a value. *)
Definition returns {A : Type} (r : result A) : Prop :=
  exists a, r = Ok a.

(** ** numpy scalars *)

Inductive num : Type :=
| Fin (r : R)
| Inf (neg : bool)
| NaN.

(** The sign bit of a real; a zero counts as positive. *)
Definition sgn (r : R) : bool := if Rlt_dec r 0 then true else false.

Definition np_neg (x : num) : num :=
  match x with
  | Fin a => Fin (- a)
  | Inf s => Inf (negb s)
  | NaN => NaN
  end.

Definition np_abs (x : num) : num :=
  match x with
  | Fin a => Fin (Rabs a)
  | Inf _ => Inf false
  | NaN => NaN
  end.

Definition np_add (x y : num) : num :=
  match x, y with
  | NaN, _ | _, NaN => NaN
  | Fin a, Fin b => Fin (a + b)
  | Fin _, Inf s | Inf s, Fin _ => Inf s
  | Inf s, Inf s' => if Bool.eqb s s' then Inf s else NaN
  end.

Definition np_sub (x y : num) : num := np_add x (np_neg y).

Definition np_mul (x y : num) : num :=
  match x, y with
  | NaN, _ | _, NaN => NaN
  | Fin a, Fin b => Fin (a * b)
  | Fin a, Inf s | Inf s, Fin a =>
      if Req_dec_T a 0 then NaN else Inf (xorb s (sgn a))
  | Inf s, Inf s' => Inf (xorb s s')
  end.

(** numpy's true division: a zero divisor gives [inf] or [nan] (and a
    warning), never an exception. *)
Definition np_div (x y : num) : num :=
  match x, y with
  | NaN, _ | _, NaN => NaN
  | Fin a, Fin b =>
      if Req_dec_T b 0
      then (if Req_dec_T a 0 then NaN else Inf (sgn a))
      else Fin (a / b)
  | Fin _, Inf _ => Fin 0
  | Inf s, Fin b => Inf (xorb s (sgn b))
  | Inf _, Inf _ => NaN
  end.

(** [x**2] on a numpy scalar. *)
Definition np_pow2 (x : num) : num := np_mul x x.

(** [np.sqrt]: [nan] on a negative argument, no exception. *)
Definition np_sqrt (x : num) : num :=
  match x with
  | Fin a => if Rlt_dec a 0 then NaN else Fin (sqrt a)
  | Inf false => Inf false
  | Inf true => NaN
  | NaN => NaN
  end.

(** ** numpy arrays (one-dimensional) *)

Definition np_sum (xs : list num) : num := fold_right np_add (Fin 0) xs.

Definition map2 {A B C : Type} (f : A -> B -> C) (xs : list A) (ys : list B)
  : list C :=
  map (fun xy => f (fst xy) (snd xy)) (combine xs ys).

(** An elementwise binary operation on two arrays: equal lengths pair up, a
    length-one array is stretched, anything else is numpy's broadcast
    error. *)
Definition broadcast (f : num -> num -> num) (xs ys : list num)
  : result (list num) :=
  if Nat.eqb (length xs) (length ys) then Ok (map2 f xs ys)
  else match xs, ys with
       | [x], _ => Ok (map (f x) ys)
       | _, [y] => Ok (map (fun x => f x y) xs)
       | _, _ => Raise (ValueError "operands could not be broadcast together")
       end.

(** ** numpy [int64] arrays *)

Definition int64_min : Z := - 2 ^ 63.
Definition int64_max : Z := 2 ^ 63 - 1.

(** The values an [int64] holds. *)
Definition int64 (z : Z) : Prop := (int64_min <= z <= int64_max)%Z.

(** Two's-complement wrap-around of an integer result into 64 bits. *)
Definition wrap64 (z : Z) : Z := ((z + 2 ^ 63) mod 2 ^ 64 - 2 ^ 63)%Z.

Definition i64_add (x y : Z) : Z := wrap64 (x + y).
Definition i64_sub (x y : Z) : Z := wrap64 (x - y).

(** [x**2] on an [int64]. *)
Definition i64_pow2 (x : Z) : Z := wrap64 (x * x).

(** [np.sum] of an [int64] array: an [int64], 0 for the empty array. *)
Definition i64_sum (xs : list Z) : Z := fold_right i64_add 0%Z xs.

(** The [float64] a true division makes of an [int64] operand. *)
Definition to_f64 (x : Z) : num := Fin (IZR x).

(** ** Python numbers and the [math] module *)

(** [a / b] on Python numbers. *)
Definition py_div (a b : R) : result R :=
  if Req_dec_T b 0 then Raise ZeroDivisionError else Ok (a / b).

(** [math.sqrt] on a Python float. *)
Definition math_sqrt (x : R) : result R :=
  if Rlt_dec x 0 then Raise (ValueError "math domain error") else Ok (sqrt x).

(** [math.sqrt] on a numpy scalar: the same function, whose argument may now
    be a special value. *)
Definition math_sqrt_np (x : num) : result num :=
  match x with
  | Fin a => r <- math_sqrt a ;; Ok (Fin r)
  | Inf false => Ok (Inf false)
  | Inf true => Raise (ValueError "math domain error")
  | NaN => Ok NaN
  end.

(** The least integer not below [r]. *)
Definition Rceil (r : R) : Z := (- Int_part (- r))%Z.

(** [math.ceil]: an [int], or an exception on a special value. *)
Definition math_ceil (x : num) : result Z :=
  match x with
  | Fin r => Ok (Rceil r)
  | Inf _ => Raise OverflowError
  | NaN => Raise (ValueError "cannot convert float NaN to integer")
  end.

(** [bool] as the integer Python makes of it in arithmetic. *)
Definition int_of_bool (b : bool) : R := if b then 1 else 0.

(** ** Python strings *)

(** [str.lower] on ASCII text. *)
Definition ascii_lower (c : ascii) : ascii :=
  let n := N_of_ascii c in
  if ((65 <=? n) && (n <=? 90))%N then ascii_of_N (n + 32) else c.

Fixpoint lower (s : string) : string :=
  match s with
  | EmptyString => EmptyString
  | String c s' => String (ascii_lower c) (lower s')
  end.

(** [s in {...}] for a set literal of strings. *)
Definition str_in (s : string) (set : list string) : bool :=
  existsb (String.eqb s) set.

(** ** pandas reductions on a Series of finite observations *)

Definition Rsum (xs : list R) : R := fold_right Rplus 0 xs.

(** [Series.count()]. *)
Definition Series_count (xs : list R) : num := Fin (INR (length xs)).

(** [Series.mean()]: [nan] on an empty Series. *)
Definition Series_mean (xs : list R) : num :=
  match xs with
  | [] => NaN
  | _ => Fin (Rsum xs / INR (length xs))
  end.

(** [Series.var(ddof=1)]: [nan] unless there are more than [ddof]
    observations. *)
Definition Series_var (xs : list R) : num :=
  if (length xs <=? 1)%nat then NaN
  else
    let m := Rsum xs / INR (length xs) in
    Fin (Rsum (map (fun x => (x - m) * (x - m)) xs) / (INR (length xs) - 1)).

(** ** The statistics backend: [import scipy.stats as st] *)

Record scipy_stats : Type := {
  norm_ppf : num -> num;
  norm_cdf : num -> num;
  norm_sf : num -> num;
  t_ppf : num -> num -> num;
  t_cdf : num -> num -> num;
  t_sf : num -> num -> num
}.

(** What the development assumes of the standard normal distribution. *)

(** Quantiles above the median are finite and positive. *)
Definition ppf_upper_positive (st : scipy_stats) : Prop :=
  forall q, 1 / 2 < q < 1 -> exists z, norm_ppf st (Fin q) = Fin z /\ 0 < z.

(** The 97.5% quantile is 1.95996... *)
Definition ppf_975 (st : scipy_stats) : Prop :=
  exists z, norm_ppf st (Fin (1 - 0.05 / 2)) = Fin z /\ 1.9599 < z < 1.96.

(** Half of the mass lies above zero. *)
Definition sf_at_zero (st : scipy_stats) : Prop :=
  norm_sf st (Fin 0) = Fin (1 / 2).

(** The open unit interval. *)
Definition in01 (x : R) : Prop := 0 < x < 1.

(** * src/stats/inference/estimation/proportion.py *)

Module Proportion.
Section WithBackend.

Variable st : scipy_stats.

Definition sample_size (moe prop : R) (popl_size : option Z) (alpha : R)
  : result Z :=
  (* Find critical value (z-score) *)
  let cv := norm_ppf st (Fin (1 - alpha / 2)) in
  let infinite :=
    let num := np_mul (np_mul (np_pow2 cv) (Fin prop)) (Fin (1 - prop)) in
    let denom := moe ^ 2 in
    math_ceil (np_div num (Fin denom)) in
  match popl_size with
  | None => infinite
  | Some N =>
      if (N =? 0)%Z then infinite
      else
        let num := IZR N * prop * (1 - prop) in
        let denom :=
          np_add (np_div (Fin ((IZR N - 1) * moe ^ 2)) (np_pow2 cv))
                 (Fin (prop * (1 - prop))) in
        math_ceil (np_div (Fin num) denom)
  end.

Definition confint (prop : R) (sample_size : Z) (alpha : R)
  : result (num * num) :=
  (* Find critical value (z-score) *)
  let cv := norm_ppf st (Fin (1 - alpha / 2)) in
  (* Find variance in p *)
  var <- py_div (prop * (1 - prop)) (IZR sample_size) ;;
  (* Find margin of error *)
  root <- math_sqrt var ;;
  let moe := np_mul cv (Fin root) in
  (* Find lower and upper bounds of CI *)
  Ok (np_sub (Fin prop) moe, np_add (Fin prop) moe).

Definition strat_proportion (props : list num) (strat_sizes : list Z)
  : result num :=
  (* Find total population size *)
  let popl_size := i64_sum strat_sizes in
  (* Find sampling fraction (stratum weights) *)
  let weights :=
    map (fun s => np_div (to_f64 s) (to_f64 popl_size)) strat_sizes in
  wp <- broadcast np_mul weights props ;;
  Ok (np_sum wp).

Definition strat_confint (props : list num) (sample_sizes strat_sizes : list Z)
  (alpha : R) : result (num * num) :=
  (* Find critical value (z-score) *)
  let cv := norm_ppf st (Fin (1 - alpha / 2)) in
  (* Find total population size *)
  let popl_size := i64_sum strat_sizes in
  (* Find weighted sample proportion *)
  prop <- strat_proportion props strat_sizes ;;
  (* Find variance of each stratum proportion *)
  v1 <- broadcast np_div (map to_f64 sample_sizes)
          (map to_f64 (map (fun n => i64_sub n 1) sample_sizes)) ;;
  v2 <- broadcast np_mul v1 props ;;
  var <- broadcast np_mul v2 (map (fun p => np_sub (Fin 1) p) props) ;;
  (* Find standard error *)
  let t1 := map i64_pow2 strat_sizes in
  let t2 := np_pow2 (np_div (Fin 1) (to_f64 popl_size)) in
  let t3 := map (fun s => np_mul (to_f64 s) t2) t1 in
  frac <- broadcast np_div (map to_f64 sample_sizes)
            (map to_f64 strat_sizes) ;;
  t4 <- broadcast np_mul t3 (map (fun f => np_sub (Fin 1) f) frac) ;;
  t5 <- broadcast np_mul t4 var ;;
  t6 <- broadcast np_div t5 (map to_f64 sample_sizes) ;;
  let se := np_sqrt (np_sum t6) in
  (* Find margin of error *)
  let moe := np_mul cv se in
  (* Find lower and upper bounds of CI *)
  Ok (np_sub prop moe, np_add prop moe).

End WithBackend.
End Proportion.

(** * src/stats/misc.py *)

Module Misc.

(** The rows of the table [ztest_2prop] returns. *)
Record ztest_table : Type := {
  z_control : R;
  z_treatment : R;
  z_score : R;
  z_p_value : num;
  z_lift : R;
  z_diff : R;
  z_ci_lower : num;
  z_ci_upper : num
}.

(** The rows of the table [welch_ttest] returns. *)
Record ttest_table : Type := {
  t_control : num;
  t_treatment : num;
  t_score : num;
  t_p_value : num;
  t_dof : num;
  t_lift : num;
  t_diff : num;
  t_ci_lower : num;
  t_ci_upper : num
}.

Definition confint (x stat se : num) (ha : string) : num * num :=
  let ci_lwr := np_sub x (np_mul stat se) in
  let ci_upr := np_add x (np_mul stat se) in
  (ci_lwr, ci_upr).

(** [(1+beta**2) * (precision*recall) / (beta**2*precision+recall)] on Python
    numbers. *)
Definition f_score (precision recall beta : R) : result R :=
  py_div ((1 + beta ^ 2) * (precision * recall))
         (beta ^ 2 * precision + recall).

Section WithBackend.

Variable st : scipy_stats.

(** No branch binds [p] for a token other than the three full words: the
    [return p] then raises [UnboundLocalError]. *)
Definition _ztest_p (z : R) (ha : string) : result num :=
  if (ha =? "less")%string then Ok (norm_cdf st (Fin z))
  else if (ha =? "greater")%string then Ok (norm_sf st (Fin z))
  else if (ha =? "two-sided")%string
       then Ok (np_mul (Fin 2) (norm_sf st (Fin (Rabs z))))
  else Raise (UnboundLocalError "p").

Definition ztest_2prop (x_treat n_treat x_ctrl n_ctrl alpha : R) (ha : string)
  : result ztest_table :=
  (* Assert valid values for ha *)
  let valid_ha :=
    ["two-sided"; "t"; "greater"; "g"; "less"; "l"]%string in
  let ha := lower ha in
  (* Raise an error if a valid ha value is not provided *)
  if negb (str_in ha valid_ha)
  then Raise (ValueError "ha must be one of valid_ha")
  else
    (* Calculate relative proportions *)
    p_treat <- py_div x_treat n_treat ;;
    p_ctrl <- py_div x_ctrl n_ctrl ;;
    p_pooled <- py_div (x_treat + x_ctrl) (n_treat + n_ctrl) ;;
    (* Compute the standard error *)
    inv_treat <- py_div 1 n_treat ;;
    inv_ctrl <- py_div 1 n_ctrl ;;
    se <- math_sqrt (p_pooled * (1 - p_pooled) * (inv_treat + inv_ctrl)) ;;
    (* Calculate the z test statistic *)
    z <- py_div (p_treat - p_ctrl) se ;;
    (* Calculate the p-value associated with z *)
    p <- _ztest_p z ha ;;
    (* Calculate the critical z-score *)
    let one_sided := str_in ha ["greater"; "less"]%string in
    let z_critical :=
      norm_ppf st (Fin (1 - alpha / (1 + int_of_bool (negb one_sided)))) in
    (* Find the lower and upper CIs boundaries *)
    let ci := confint (Fin (p_treat - p_ctrl)) z_critical (Fin se) ha in
    (* Calculate the pct lift *)
    ratio <- py_div p_treat p_ctrl ;;
    let lift := ratio - 1 in
    Ok {| z_control := p_ctrl; z_treatment := p_treat; z_score := z;
          z_p_value := p; z_lift := lift; z_diff := p_treat - p_ctrl;
          z_ci_lower := fst ci; z_ci_upper := snd ci |}.

Definition _ttest_p (t dof : num) (ha : string) : result num :=
  if (ha =? "less")%string then Ok (t_cdf st t dof)
  else if (ha =? "greater")%string then Ok (t_sf st t dof)
  else if (ha =? "two-sided")%string
       then Ok (np_mul (Fin 2) (t_sf st (np_abs t) dof))
  else Raise (UnboundLocalError "p").

Definition welch_ttest (treat ctrl : list R) (alpha : R) (ha : string)
  : result ttest_table :=
  (* Assert valid values for ha *)
  let valid_ha := ["two-sided"; "greater"; "less"]%string in
  let ha := lower ha in
  (* Raise an error if a valid ha value is not provided *)
  if negb (str_in ha valid_ha)
  then Raise (ValueError "ha must be one of valid_ha")
  else
    (* Get each group's sample size *)
    let n_treat := Series_count treat in
    let n_ctrl := Series_count ctrl in
    (* Get the mean of each group *)
    let mean_treat := Series_mean treat in
    let mean_ctrl := Series_mean ctrl in
    (* Get the variance of each group *)
    let var_treat := Series_var treat in
    let var_ctrl := Series_var ctrl in
    (* Calculate the pooled standard error *)
    se <- math_sqrt_np
            (np_add (np_div var_treat n_treat) (np_div var_ctrl n_ctrl)) ;;
    let t := np_div (np_sub mean_treat mean_ctrl) se in
    (* Welch-Satterthwaite degrees of freedom *)
    let dof :=
      np_div
        (np_pow2 (np_add (np_div var_treat n_treat) (np_div var_ctrl n_ctrl)))
        (np_add
           (np_div (np_pow2 (np_div var_treat n_treat))
                   (np_sub n_treat (Fin 1)))
           (np_div (np_pow2 (np_div var_ctrl n_ctrl))
                   (np_sub n_ctrl (Fin 1)))) in
    (* Calculate the p-value associated with t and dof *)
    p <- _ttest_p t dof ha ;;
    (* Calculate the critical t-score *)
    let one_sided := str_in ha ["greater"; "less"]%string in
    let t_critical :=
      t_ppf st (Fin (1 - alpha / (1 + int_of_bool (negb one_sided)))) dof in
    (* Find the lower and upper CIs boundaries *)
    let ci := confint (np_sub mean_treat mean_ctrl) t_critical se ha in
    (* Calculate the pct lift *)
    let lift := np_sub (np_div mean_treat mean_ctrl) (Fin 1) in
    Ok {| t_control := mean_ctrl; t_treatment := mean_treat; t_score := t;
          t_p_value := p; t_dof := dof; t_lift := lift;
          t_diff := np_sub mean_treat mean_ctrl;
          t_ci_lower := fst ci; t_ci_upper := snd ci |}.

Definition pop_prop_sample_size (d p : R) (N : option Z) (cl : R)
  : result Z :=
  (* Calculate the alpha value *)
  let alpha := 1 - cl in
  (* Calculate the z-score *)
  let z := norm_ppf st (Fin (1 - alpha / 2)) in
  let infinite :=
    let num := np_mul (np_mul (np_pow2 z) (Fin p)) (Fin (1 - p)) in
    let denom := d ^ 2 in
    math_ceil (np_div num (Fin denom)) in
  match N with
  | None => infinite
  | Some N =>
      if (N =? 0)%Z then infinite
      else
        let num := IZR N * p * (1 - p) in
        let denom :=
          np_add (np_div (Fin ((IZR N - 1) * d ^ 2)) (np_pow2 z))
                 (Fin (p * (1 - p))) in
        math_ceil (np_div (Fin num) denom)
  end.

Definition pop_prop_confint (p : R) (n : Z) (cl : R) : result (num * num) :=
  (* Calculate the alpha value *)
  let alpha := 1 - cl in
  (* Calculate the z-score *)
  let z := norm_ppf st (Fin (1 - alpha / 2)) in
  (* Calculate the variance in p *)
  var_p <- py_div (p * (1 - p)) (IZR n) ;;
  (* Calculate the margin of error *)
  root <- math_sqrt var_p ;;
  let d := np_mul z (Fin root) in
  Ok (np_sub (Fin p) d, np_add (Fin p) d).

End WithBackend.
End Misc.

(** * Specification-side definitions *)

(** The quotient the specification takes the ceiling of: the sample size
    before rounding, with and without the finite population correction. *)
Definition sample_size_quotient (z moe prop : R) (popl_size : option Z) : R :=
  match popl_size with
  | None => z ^ 2 * prop * (1 - prop) / moe ^ 2
  | Some N =>
      IZR N * prop * (1 - prop)
      / ((IZR N - 1) * moe ^ 2 / z ^ 2 + prop * (1 - prop))
  end.

(** The tokens each test accepts for [ha], after lowering. *)
Definition valid_ha_ztest : list string :=
  ["two-sided"; "t"; "greater"; "g"; "less"; "l"]%string.

Definition valid_ha_ttest : list string :=
  ["two-sided"; "greater"; "less"]%string.

(** One stratum of a stratified sample: observed proportion, sample size and
    stratum size. *)
Record stratum : Type := {
  s_prop : R;
  s_sample : Z;
  s_size : Z
}.

Definition Zsum (xs : list Z) : Z := fold_right Z.add 0%Z xs.

Definition strata_popl_size (ss : list stratum) : R :=
  Rsum (map (fun s => IZR (s_size s)) ss).

(** The [strat_size]-weighted proportion. *)
Definition strata_proportion (ss : list stratum) : R :=
  Rsum (map (fun s => IZR (s_size s) / strata_popl_size ss * s_prop s) ss).

(** The per-stratum variance [n/(n-1) * p(1-p)]. *)
Definition stratum_var (s : stratum) : R :=
  IZR (s_sample s) / (IZR (s_sample s) - 1) * (s_prop s * (1 - s_prop s)).

(** The sum under the square root of the standard error. *)
Definition strata_variance (ss : list stratum) : R :=
  Rsum (map (fun s =>
               IZR (s_size s) ^ 2 * (1 / strata_popl_size ss) ^ 2
               * (1 - IZR (s_sample s) / IZR (s_size s))
               * stratum_var s / IZR (s_sample s))
            ss).

(** The strata described by three parallel arrays. *)
Fixpoint strata_of (props : list R) (sample_sizes strat_sizes : list Z)
  : list stratum :=
  match props, sample_sizes, strat_sizes with
  | p :: props', n :: sample_sizes', N :: strat_sizes' =>
      {| s_prop := p; s_sample := n; s_size := N |}
      :: strata_of props' sample_sizes' strat_sizes'
  | _, _, _ => []
  end.

(** A stratum is sampled at least twice and at most exhaustively. *)
Definition stratum_ok (s : stratum) : Prop :=
  (2 <= s_sample s <= s_size s)%Z.


(** The integer arithmetic on the stratum sizes stays within [int64]: no
    square of a stratum size and no total of them exceeds [2^63 - 1]. *)
Definition sizes_fit_int64 (strat_sizes : list Z) : Prop :=
  Forall (fun N => (N * N <= int64_max)%Z) strat_sizes
  /\ (Zsum strat_sizes <= int64_max)%Z.

(** A numpy array of finite numbers. *)
Definition np_array (xs : list R) : list num := map Fin xs.

(** * A model of the backend

    The quantile, distribution and survival functions of the uniform
    distribution on [-a, a], with [a] chosen so that its 97.5% quantile is
    1.95996.  It satisfies everything assumed of the standard normal
    distribution, which shows the assumptions consistent; the Student
    functions ignore the degrees of freedom. *)

Definition uniform_halfwidth : R := 1.95996 / 0.95.

Definition uniform_ppf (x : num) : num :=
  match x with
  | Fin q =>
      if Rlt_dec q 0 then NaN
      else if Rlt_dec 1 q then NaN
      else Fin (uniform_halfwidth * (2 * q - 1))
  | _ => NaN
  end.

Definition uniform_cdf (x : num) : num :=
  match x with
  | Fin r => Fin (Rmax 0 (Rmin 1 (1 / 2 + r / (2 * uniform_halfwidth))))
  | Inf true => Fin 0
  | Inf false => Fin 1
  | NaN => NaN
  end.

Definition uniform_sf (x : num) : num := np_sub (Fin 1) (uniform_cdf x).

Definition uniform_stats : scipy_stats := {|
  norm_ppf := uniform_ppf;
  norm_cdf := uniform_cdf;
  norm_sf := uniform_sf;
  t_ppf := fun q _ => uniform_ppf q;
  t_cdf := fun x _ => uniform_cdf x;
  t_sf := fun x _ => uniform_sf x
|}.

(** * Properties *)

(** ** Arithmetic helpers *)

Lemma Rceil_spec (r : R) : IZR (Rceil r) - 1 < r <= IZR (Rceil r).
Proof.
  unfold Rceil. rewrite opp_IZR.
  destruct (base_Int_part (- r)) as [Hle Hgt]. lra.
Qed.

Lemma Rceil_unique (r : R) (n : Z) : IZR n - 1 < r <= IZR n -> Rceil r = n.
Proof.
  intros [Hlo Hhi]. unfold Rceil.
  assert (E : (- n)%Z = Int_part (- r)).
  { apply Int_part_spec. rewrite opp_IZR. lra. }
  rewrite <- E. lia.
Qed.

Lemma Rceil_le (r1 r2 : R) : r1 <= r2 -> (Rceil r1 <= Rceil r2)%Z.
Proof.
  intros Hle.
  destruct (Rceil_spec r1) as [Hlo1 _]. destruct (Rceil_spec r2) as [_ Hhi2].
  assert (H : IZR (Rceil r1) - 1 < IZR (Rceil r2)) by lra.
  assert (H' : IZR (Rceil r1) < IZR (Rceil r2 + 1)) by (rewrite plus_IZR; lra).
  apply lt_IZR in H'. lia.
Qed.

Lemma Rceil_pos (r : R) : 0 < r -> (1 <= Rceil r)%Z.
Proof.
  intros Hr. destruct (Rceil_spec r) as [_ Hhi].
  assert (H : 0 < IZR (Rceil r)) by lra.
  apply lt_IZR in H. lia.
Qed.

Lemma math_ceil_raises (x : num) (e : exn) :
  math_ceil x = Raise e ->
  e = OverflowError \/ e = ValueError "cannot convert float NaN to integer".
Proof.
  destruct x; cbn [math_ceil]; intros H; inversion H; auto.
Qed.

Lemma np_div_fin (a b : R) : b <> 0 -> np_div (Fin a) (Fin b) = Fin (a / b).
Proof.
  intros Hb. unfold np_div. destruct (Req_dec_T b 0); [contradiction | reflexivity].
Qed.

Lemma py_div_ok (a b : R) : b <> 0 -> py_div a b = Ok (a / b).
Proof.
  intros Hb. unfold py_div. destruct (Req_dec_T b 0); [contradiction | reflexivity].
Qed.

Lemma py_div_zero (a : R) : py_div a 0 = Raise ZeroDivisionError.
Proof.
  unfold py_div. destruct (Req_dec_T 0 0) as [_ | H]; [reflexivity | now elim H].
Qed.

Lemma math_sqrt_ok (x : R) : 0 <= x -> math_sqrt x = Ok (sqrt x).
Proof.
  intros Hx. unfold math_sqrt. destruct (Rlt_dec x 0); [lra | reflexivity].
Qed.

(** ** The model of the backend satisfies the assumptions *)

Lemma uniform_halfwidth_pos : 0 < uniform_halfwidth.
Proof. unfold uniform_halfwidth. lra. Qed.

Lemma uniform_ppf_fin (q : R) :
  0 <= q <= 1 -> uniform_ppf (Fin q) = Fin (uniform_halfwidth * (2 * q - 1)).
Proof.
  intros Hq. unfold uniform_ppf.
  destruct (Rlt_dec q 0); [lra |]. destruct (Rlt_dec 1 q); [lra | reflexivity].
Qed.

Lemma uniform_ppf_upper_positive : ppf_upper_positive uniform_stats.
Proof.
  intros q Hq. exists (uniform_halfwidth * (2 * q - 1)). split.
  - apply uniform_ppf_fin. lra.
  - pose proof uniform_halfwidth_pos. nra.
Qed.

Lemma uniform_ppf_975 : ppf_975 uniform_stats.
Proof.
  exists (uniform_halfwidth * (2 * (1 - 0.05 / 2) - 1)). split.
  - apply uniform_ppf_fin. lra.
  - unfold uniform_halfwidth. lra.
Qed.

Lemma uniform_sf_at_zero : sf_at_zero uniform_stats.
Proof.
  unfold sf_at_zero. cbn. f_equal.
  replace (1 / 2 + 0 / (2 * uniform_halfwidth)) with (1 / 2)
    by (unfold Rdiv; ring).
  unfold Rmin. destruct (Rle_dec 1 (1 / 2)); [lra |].
  unfold Rmax. destruct (Rle_dec 0 (1 / 2)); lra.
Qed.

(** ** [Proportion.sample_size] *)

Section SampleSize.

Variable st : scipy_stats.
Hypothesis Hpos : ppf_upper_positive st.

Lemma critical_value_positive (alpha : R) :
  in01 alpha -> exists z, norm_ppf st (Fin (1 - alpha / 2)) = Fin z /\ 0 < z.
Proof.
  intros [Ha0 Ha1]. apply Hpos. lra.
Qed.

(** With a finite quantile and a non-zero margin the infinite-population
    branch returns the ceiling of the quotient, whatever the arguments. *)
Lemma sample_size_infinite (z moe prop alpha : R) :
  norm_ppf st (Fin (1 - alpha / 2)) = Fin z ->
  moe <> 0 ->
  Proportion.sample_size st moe prop None alpha
  = Ok (Rceil (sample_size_quotient z moe prop None)).
Proof.
  intros Hz Hmoe. unfold Proportion.sample_size. rewrite Hz.
  cbn [np_pow2 np_mul].
  rewrite np_div_fin by (apply pow_nonzero; exact Hmoe).
  cbn [math_ceil sample_size_quotient]. do 2 f_equal. field. exact Hmoe.
Qed.

(** The same for the branch with the finite population correction. *)
Lemma sample_size_finite (z moe prop alpha : R) (N : Z) :
  norm_ppf st (Fin (1 - alpha / 2)) = Fin z ->
  z <> 0 ->
  N <> 0%Z ->
  (IZR N - 1) * moe ^ 2 / z ^ 2 + prop * (1 - prop) <> 0 ->
  Proportion.sample_size st moe prop (Some N) alpha
  = Ok (Rceil (sample_size_quotient z moe prop (Some N))).
Proof.
  intros Hz Hz0 HN Hden. unfold Proportion.sample_size. rewrite Hz.
  destruct (Z.eqb_spec N 0) as [E | _]; [contradiction |].
  cbn [np_pow2 np_mul].
  assert (Hzz : z * z <> 0) by (apply Rmult_integral_contrapositive_currified; assumption).
  rewrite np_div_fin by exact Hzz. cbn [np_add].
  assert (Hd : (IZR N - 1) * moe ^ 2 / (z * z) + prop * (1 - prop)
               = (IZR N - 1) * moe ^ 2 / z ^ 2 + prop * (1 - prop))
    by (field; exact Hz0).
  rewrite Hd. rewrite np_div_fin by exact Hden. reflexivity.
Qed.

(** The only exceptions of [sample_size] are those of [math.ceil] on a
    quotient that is not finite. *)
Lemma sample_size_raises_in_ceil
  (moe prop : R) (popl_size : option Z) (alpha : R) (e : exn) :
  Proportion.sample_size st moe prop popl_size alpha = Raise e ->
  e = OverflowError \/ e = ValueError "cannot convert float NaN to integer".
Proof.
  unfold Proportion.sample_size. intros H.
  destruct popl_size as [N |]; [destruct (N =? 0)%Z |];
    eapply math_ceil_raises; exact H.
Qed.

Lemma quotient_infinite_positive (z moe prop : R) :
  0 < z -> moe <> 0 -> in01 prop ->
  0 < sample_size_quotient z moe prop None.
Proof.
  intros Hz Hmoe [Hp0 Hp1]. cbn [sample_size_quotient].
  apply Rdiv_lt_0_compat.
  - apply Rmult_lt_0_compat; [apply Rmult_lt_0_compat |]; try lra.
    apply pow_lt; exact Hz.
  - assert (H := pow2_ge_0 moe). assert (H' := pow_nonzero moe 2 Hmoe). lra.
Qed.

Lemma denominator_finite_positive (z moe prop : R) (N : Z) :
  0 < z -> in01 prop -> (1 <= N)%Z ->
  0 < (IZR N - 1) * moe ^ 2 / z ^ 2 + prop * (1 - prop).
Proof.
  intros Hz [Hp0 Hp1] HN.
  assert (HN' : 0 <= IZR N - 1) by (apply IZR_le in HN; lra).
  assert (Hm : 0 <= moe ^ 2) by apply pow2_ge_0.
  assert (Hzz : 0 < z ^ 2) by (apply pow_lt; exact Hz).
  assert (Hq : 0 <= (IZR N - 1) * moe ^ 2 / z ^ 2).
  { apply Rmult_le_pos; [apply Rmult_le_pos; assumption |].
    left. apply Rinv_0_lt_compat. exact Hzz. }
  assert (Hp : 0 < prop * (1 - prop)) by (apply Rmult_lt_0_compat; lra).
  lra.
Qed.

Lemma quotient_finite_positive (z moe prop : R) (N : Z) :
  0 < z -> in01 prop -> (1 <= N)%Z ->
  0 < sample_size_quotient z moe prop (Some N).
Proof.
  intros Hz Hp HN. cbn [sample_size_quotient].
  apply Rdiv_lt_0_compat.
  - destruct Hp as [Hp0 Hp1]. apply IZR_le in HN.
    apply Rmult_lt_0_compat; [apply Rmult_lt_0_compat |]; lra.
  - apply denominator_finite_positive; assumption.
Qed.

(** At alpha = 0.05 and prop = 0.5 the quotient is a quarter of [z^2] over
    the squared margin. *)
Lemma sample_size_at_95 (moe : R) (n : Z) :
  ppf_975 st ->
  moe <> 0 ->
  (forall z, 1.9599 < z < 1.96 ->
             IZR n - 1 < z ^ 2 * 0.5 * (1 - 0.5) / moe ^ 2 <= IZR n) ->
  Proportion.sample_size st moe 0.5 None 0.05 = Ok n.
Proof.
  intros [z [Hz Hb]] Hmoe Hn.
  rewrite (sample_size_infinite z) by assumption.
  f_equal. apply Rceil_unique. cbn [sample_size_quotient]. apply Hn. exact Hb.
Qed.

(** C2: for moe, prop and alpha in (0,1), [sample_size] without a population
    size is the ceiling of [z^2 * prop * (1 - prop) / moe^2], z being the
    backend's [1 - alpha/2] quantile; with moe = 0.05, prop = 0.5 and
    alpha = 0.05 it is 385. *)
Theorem sample_size_infinite_population (moe prop alpha : R) :
  ppf_975 st ->
  in01 moe -> in01 prop -> in01 alpha ->
  (exists z,
      norm_ppf st (Fin (1 - alpha / 2)) = Fin z /\
      Proportion.sample_size st moe prop None alpha
      = Ok (Rceil (z ^ 2 * prop * (1 - prop) / moe ^ 2)))
  /\ Proportion.sample_size st 0.05 0.5 None 0.05 = Ok 385%Z.
Proof.
  intros H975 Hmoe Hprop Halpha. split.
  - destruct (critical_value_positive alpha Halpha) as [z [Hz _]].
    exists z. split; [exact Hz |].
    apply sample_size_infinite; [exact Hz |]. destruct Hmoe. lra.
  - apply sample_size_at_95; [exact H975 | lra |].
    intros z Hz. nra.
Qed.

(** C3, as the code has it: [sample_size] checks none of its arguments.  A
    finite quantile and a non-zero margin give the ceiling of the quotient
    whether or not moe, prop and alpha lie in (0,1), and the only exceptions
    are those of [math.ceil] on a quotient that is not finite; when the three
    arguments do lie in (0,1), and the population size is absent or at least
    1, that ceiling [n] is a positive integer with [q <= n < q + 1]. *)
Theorem sample_size_unchecked_positive_ceiling
  (moe prop : R) (popl_size : option Z) (alpha : R) :
  in01 moe -> in01 prop -> in01 alpha ->
  match popl_size with Some N => (1 <= N)%Z | None => True end ->
  (forall moe' prop' alpha' z,
      norm_ppf st (Fin (1 - alpha' / 2)) = Fin z -> moe' <> 0 ->
      Proportion.sample_size st moe' prop' None alpha'
      = Ok (Rceil (z ^ 2 * prop' * (1 - prop') / moe' ^ 2)))
  /\ (forall moe' prop' popl_size' alpha' e,
        Proportion.sample_size st moe' prop' popl_size' alpha' = Raise e ->
        e = OverflowError \/
        e = ValueError "cannot convert float NaN to integer")
  /\ exists z n,
      norm_ppf st (Fin (1 - alpha / 2)) = Fin z /\
      Proportion.sample_size st moe prop popl_size alpha = Ok n /\
      (1 <= n)%Z /\
      sample_size_quotient z moe prop popl_size <= IZR n
      < sample_size_quotient z moe prop popl_size + 1.
Proof.
  intros Hmoe Hprop Halpha HN. split; [| split].
  - intros moe' prop' alpha' z Hz Hm. apply (sample_size_infinite z); assumption.
  - intros moe' prop' popl_size' alpha' e.
    apply sample_size_raises_in_ceil.
  - destruct (critical_value_positive alpha Halpha) as [z [Hz Hz0]].
    assert (Hm : moe <> 0) by (destruct Hmoe; lra).
    exists z, (Rceil (sample_size_quotient z moe prop popl_size)).
    split; [exact Hz |].
    assert (Hq : 0 < sample_size_quotient z moe prop popl_size).
    { destruct popl_size as [N |].
      - apply quotient_finite_positive; assumption.
      - apply quotient_infinite_positive; assumption. }
    split; [| split; [apply Rceil_pos; exact Hq |]].
    + destruct popl_size as [N |].
      * apply sample_size_finite; [exact Hz | lra | lia |].
        pose proof (denominator_finite_positive z moe prop N Hz0 Hprop HN). lra.
      * apply sample_size_infinite; assumption.
    + pose proof (Rceil_spec (sample_size_quotient z moe prop popl_size)). lra.
Qed.

(** C5, as the code has it: with prop and alpha fixed in (0,1) and no
    population size, a larger margin never needs a larger sample; the
    quotient before the ceiling is strictly smaller, the sample size itself
    only weakly. *)
Theorem sample_size_antitone_in_moe (moe1 moe2 prop alpha : R) :
  0 < moe1 -> moe1 < moe2 -> moe2 < 1 -> in01 prop -> in01 alpha ->
  exists z n1 n2,
    norm_ppf st (Fin (1 - alpha / 2)) = Fin z /\
    Proportion.sample_size st moe1 prop None alpha = Ok n1 /\
    Proportion.sample_size st moe2 prop None alpha = Ok n2 /\
    (n2 <= n1)%Z /\
    sample_size_quotient z moe2 prop None
    < sample_size_quotient z moe1 prop None.
Proof.
  intros H1 H12 H2 Hprop Halpha.
  destruct (critical_value_positive alpha Halpha) as [z [Hz Hz0]].
  exists z, (Rceil (sample_size_quotient z moe1 prop None)),
         (Rceil (sample_size_quotient z moe2 prop None)).
  assert (Hlt : sample_size_quotient z moe2 prop None
                < sample_size_quotient z moe1 prop None).
  { cbn [sample_size_quotient]. destruct Hprop as [Hp0 Hp1].
    assert (Hc : 0 < z ^ 2 * prop * (1 - prop)).
    { apply Rmult_lt_0_compat; [apply Rmult_lt_0_compat |]; try lra.
      apply pow_lt; exact Hz0. }
    assert (Hs1 : 0 < moe1 ^ 2) by (apply pow_lt; lra).
    assert (Hs2 : moe1 ^ 2 < moe2 ^ 2).
    { replace (moe1 ^ 2) with (moe1 * moe1) by ring.
      replace (moe2 ^ 2) with (moe2 * moe2) by ring.
      apply Rmult_le_0_lt_compat; lra. }
    assert (Hm : / moe2 ^ 2 < / moe1 ^ 2).
    { apply Rinv_lt_contravar; [apply Rmult_lt_0_compat; lra | exact Hs2]. }
    unfold Rdiv. apply Rmult_lt_compat_l; assumption. }
  split; [exact Hz |].
  split; [apply sample_size_infinite; [exact Hz | lra] |].
  split; [apply sample_size_infinite; [exact Hz | lra] |].
  split; [apply Rceil_le; lra | exact Hlt].
Qed.

(** C10: the two copies of the sample-size formula agree on every input:
    [pop_prop_sample_size d p N cl] is [sample_size d p N (1 - cl)], values
    and exceptions alike. *)
Theorem pop_prop_sample_size_is_sample_size
  (d p : R) (N : option Z) (cl : R) :
  Misc.pop_prop_sample_size st d p N cl
  = Proportion.sample_size st d p N (1 - cl).
Proof.
  unfold Misc.pop_prop_sample_size, Proportion.sample_size. reflexivity.
Qed.

End SampleSize.

(** ** [Proportion.confint] *)

Section Confint.

Variable st : scipy_stats.
Hypothesis Hpos : ppf_upper_positive st.

(** C9: for prop in (0,1), an integer sample size n > 0 and alpha in (0,1),
    [confint] returns exactly [prop - z*sqrt(prop*(1-prop)/n)] and
    [prop + z*sqrt(prop*(1-prop)/n)], unclamped, and prop lies strictly
    between the two. *)
Theorem confint_brackets_prop (prop : R) (n : Z) (alpha : R) :
  in01 prop -> (0 < n)%Z -> in01 alpha ->
  exists z,
    norm_ppf st (Fin (1 - alpha / 2)) = Fin z /\
    Proportion.confint st prop n alpha
    = Ok (Fin (prop - z * sqrt (prop * (1 - prop) / IZR n)),
          Fin (prop + z * sqrt (prop * (1 - prop) / IZR n))) /\
    prop - z * sqrt (prop * (1 - prop) / IZR n) < prop /\
    prop < prop + z * sqrt (prop * (1 - prop) / IZR n).
Proof.
  intros [Hp0 Hp1] Hn [Ha0 Ha1].
  destruct (Hpos (1 - alpha / 2)) as [z [Hz Hz0]]; [lra |].
  assert (Hn' : 0 < IZR n) by (apply IZR_lt in Hn; exact Hn).
  assert (Hvar : 0 < prop * (1 - prop) / IZR n).
  { apply Rdiv_lt_0_compat; [apply Rmult_lt_0_compat; lra | exact Hn']. }
  assert (Hroot : 0 < sqrt (prop * (1 - prop) / IZR n))
    by (apply sqrt_lt_R0; exact Hvar).
  assert (Hmoe : 0 < z * sqrt (prop * (1 - prop) / IZR n))
    by (apply Rmult_lt_0_compat; assumption).
  exists z. split; [exact Hz |]. split; [| lra].
  unfold Proportion.confint. rewrite Hz.
  rewrite py_div_ok by lra. cbn [bind].
  rewrite math_sqrt_ok by lra. cbn [bind np_mul np_sub np_add np_neg].
  reflexivity.
Qed.

End Confint.

(** ** [Misc.f_score] *)

(** C7, as the code has it: [f_score] checks nothing and treats no input
    specially.  It returns the quotient whenever the denominator
    [beta^2 * precision + recall] is not zero, in or out of [0,1]; when the
    denominator is zero, as for precision = recall = 0, the division raises
    [ZeroDivisionError] and no value is returned. *)
Theorem f_score_zero_denominator_raises (precision recall beta : R) :
  (beta ^ 2 * precision + recall <> 0 ->
   Misc.f_score precision recall beta
   = Ok ((1 + beta ^ 2) * (precision * recall)
         / (beta ^ 2 * precision + recall)))
  /\ (beta ^ 2 * precision + recall = 0 ->
      Misc.f_score precision recall beta = Raise ZeroDivisionError)
  /\ Misc.f_score 0 0 beta = Raise ZeroDivisionError.
Proof.
  unfold Misc.f_score. split; [| split].
  - intros H. apply py_div_ok. exact H.
  - intros H. rewrite H. apply py_div_zero.
  - replace (beta ^ 2 * 0 + 0) with 0 by ring. apply py_div_zero.
Qed.

(** ** [Misc.ztest_2prop] *)

Section ZTest.

Variable st : scipy_stats.

(** With a recognised [ha] and arithmetic that raises nothing, the test is
    decided by [_ztest_p] alone. *)
Lemma ztest_2prop_reaches_p
  (x_treat n_treat x_ctrl n_ctrl alpha : R) (ha : string) :
  str_in (lower ha) valid_ha_ztest = true ->
  n_treat <> 0 -> n_ctrl <> 0 -> n_treat + n_ctrl <> 0 ->
  0 < (x_treat + x_ctrl) / (n_treat + n_ctrl)
      * (1 - (x_treat + x_ctrl) / (n_treat + n_ctrl))
      * (1 / n_treat + 1 / n_ctrl) ->
  x_ctrl / n_ctrl <> 0 ->
  forall p,
    Misc._ztest_p st
      ((x_treat / n_treat - x_ctrl / n_ctrl)
       / sqrt ((x_treat + x_ctrl) / (n_treat + n_ctrl)
               * (1 - (x_treat + x_ctrl) / (n_treat + n_ctrl))
               * (1 / n_treat + 1 / n_ctrl)))
      (lower ha) = p ->
    match p with
    | Raise e =>
        Misc.ztest_2prop st x_treat n_treat x_ctrl n_ctrl alpha ha = Raise e
    | Ok pv =>
        exists r,
          Misc.ztest_2prop st x_treat n_treat x_ctrl n_ctrl alpha ha = Ok r /\
          Misc.z_score r
          = (x_treat / n_treat - x_ctrl / n_ctrl)
            / sqrt ((x_treat + x_ctrl) / (n_treat + n_ctrl)
                    * (1 - (x_treat + x_ctrl) / (n_treat + n_ctrl))
                    * (1 / n_treat + 1 / n_ctrl)) /\
          Misc.z_p_value r = pv /\
          Misc.z_lift r = x_treat / n_treat / (x_ctrl / n_ctrl) - 1
    end.
Proof.
  intros Hha Ht Hc Htc Hv Hpc p Hp.
  unfold Misc.ztest_2prop. fold valid_ha_ztest. rewrite Hha. cbn [negb].
  rewrite !py_div_ok by assumption. cbn [bind].
  rewrite math_sqrt_ok by lra. cbn [bind].
  rewrite py_div_ok by (apply Rgt_not_eq, sqrt_lt_R0; exact Hv). cbn [bind].
  rewrite Hp. destruct p as [pv | e]; cbn [bind].
  - rewrite py_div_ok by exact Hpc. cbn [bind].
    eexists. split; [reflexivity |]. cbn. repeat split.
  - reflexivity.
Qed.

Lemma ztest_arith_120_100 :
  0 < (120 + 100) / (1000 + 1000) * (1 - (120 + 100) / (1000 + 1000))
      * (1 / 1000 + 1 / 1000).
Proof. lra. Qed.

(** C1 at its failing input: the alias ['t'] passes the check of [ha] but no
    branch of [_ztest_p] binds [p] for it, so the call raises
    [UnboundLocalError], while the full word ['two-sided'] on the same
    numbers returns a table. *)
Theorem ztest_2prop_alias_unbound :
  Misc.ztest_2prop st 120 1000 100 1000 0.05 "t"
  = Raise (UnboundLocalError "p")
  /\ returns (Misc.ztest_2prop st 120 1000 100 1000 0.05 "two-sided").
Proof.
  split.
  - refine (ztest_2prop_reaches_p 120 1000 100 1000 0.05 "t"
              eq_refl _ _ _ ztest_arith_120_100 _ _ eq_refl); lra.
  - destruct (ztest_2prop_reaches_p 120 1000 100 1000 0.05 "two-sided"
                eq_refl ltac:(lra) ltac:(lra) ltac:(lra)
                ztest_arith_120_100 ltac:(lra) _ eq_refl) as [r [Hr _]].
    exists r. exact Hr.
Qed.

(** No single-letter alias, in either case, ever yields a table: whatever
    the numbers, the call raises. *)
Lemma ztest_2prop_alias_never_returns
  (x_treat n_treat x_ctrl n_ctrl alpha : R) (ha : string) :
  In (lower ha) ["t"; "g"; "l"]%string ->
  ~ returns (Misc.ztest_2prop st x_treat n_treat x_ctrl n_ctrl alpha ha).
Proof.
  intros Hin [r Hr]. unfold Misc.ztest_2prop in Hr.
  assert (Hp : forall z, Misc._ztest_p st z (lower ha)
                         = Raise (UnboundLocalError "p")).
  { intros z. destruct Hin as [E | [E | [E | []]]]; rewrite <- E; reflexivity. }
  destruct (negb _); [discriminate |].
  destruct (py_div x_treat n_treat); [| discriminate].
  destruct (py_div x_ctrl n_ctrl); [| discriminate].
  destruct (py_div (x_treat + x_ctrl) (n_treat + n_ctrl)); [| discriminate].
  destruct (py_div 1 n_treat); [| discriminate].
  destruct (py_div 1 n_ctrl); [| discriminate].
  cbn [bind] in Hr.
  destruct (math_sqrt _); [| discriminate]. cbn [bind] in Hr.
  destruct (py_div _ _); [| discriminate]. cbn [bind] in Hr.
  rewrite Hp in Hr. discriminate.
Qed.

(** A token outside the six is rejected with [ValueError] before any
    arithmetic. *)
Lemma ztest_2prop_rejects_unknown_ha
  (x_treat n_treat x_ctrl n_ctrl alpha : R) (ha : string) :
  str_in (lower ha) valid_ha_ztest = false ->
  InvalidArgument (Misc.ztest_2prop st x_treat n_treat x_ctrl n_ctrl alpha ha).
Proof.
  intros Hha. unfold Misc.ztest_2prop. fold valid_ha_ztest. rewrite Hha.
  cbn [negb]. eexists. reflexivity.
Qed.

Hypothesis Hsf : sf_at_zero st.

(** C8, as the code has it: for a count strictly between 0 and the sample
    size, identical treatment and control groups give a z-statistic of 0, a
    two-sided p-value of 1 and a lift of 0. *)
Theorem ztest_2prop_identical_groups (x n alpha : R) :
  0 < x -> x < n ->
  exists r,
    Misc.ztest_2prop st x n x n alpha "two-sided" = Ok r /\
    Misc.z_score r = 0 /\
    Misc.z_p_value r = Fin 1 /\
    Misc.z_lift r = 0.
Proof.
  intros Hx Hxn.
  assert (Hn : n <> 0) by lra.
  assert (Hpp : (x + x) / (n + n) = x / n) by (field; split; lra).
  assert (Hq : 0 < x / n < 1).
  { split; [apply Rdiv_lt_0_compat; lra |].
    apply Rmult_lt_reg_r with n; [lra |]. unfold Rdiv.
    rewrite Rmult_assoc, Rinv_l by exact Hn. lra. }
  assert (Hinv : 0 < 1 / n) by (apply Rdiv_lt_0_compat; lra).
  assert (Hv : 0 < (x + x) / (n + n) * (1 - (x + x) / (n + n))
                   * (1 / n + 1 / n)).
  { rewrite Hpp. apply Rmult_lt_0_compat; [apply Rmult_lt_0_compat |]; lra. }
  destruct (ztest_2prop_reaches_p x n x n alpha "two-sided"
              eq_refl Hn Hn ltac:(lra) Hv ltac:(lra) _ eq_refl)
    as [r [Hr [Hz [Hp Hl]]]].
  exists r. split; [exact Hr |]. split; [| split].
  - rewrite Hz. unfold Rdiv at 1. rewrite Rminus_diag. apply Rmult_0_l.
  - rewrite Hp. unfold Rdiv at 1. rewrite Rminus_diag, Rmult_0_l, Rabs_R0.
    rewrite Hsf. cbn [np_mul]. f_equal. lra.
  - rewrite Hl. unfold Rdiv at 1. rewrite Rinv_r by lra. lra.
Qed.

End ZTest.

(** ** [Misc.welch_ttest] *)

Lemma np_add_nan_r (x : num) : np_add x NaN = NaN.
Proof. destruct x; reflexivity. Qed.

Lemma np_mul_nan_r (x : num) : np_mul x NaN = NaN.
Proof. destruct x; reflexivity. Qed.

Lemma np_div_nan_r (x : num) : np_div x NaN = NaN.
Proof. destruct x; reflexivity. Qed.

Lemma np_sub_nan_r (x : num) : np_sub x NaN = NaN.
Proof. unfold np_sub. cbn [np_neg]. apply np_add_nan_r. Qed.

Lemma Series_var_small (xs : list R) :
  (length xs < 2)%nat -> Series_var xs = NaN.
Proof.
  intros H. unfold Series_var.
  destruct (Nat.leb_spec (length xs) 1); [reflexivity | lia].
Qed.

Section WelchTTest.

Variable st : scipy_stats.

Lemma _ttest_p_valid (t dof : num) (ha : string) :
  str_in ha valid_ha_ttest = true -> returns (Misc._ttest_p st t dof ha).
Proof.
  unfold str_in, valid_ha_ttest, Misc._ttest_p. cbn [existsb].
  destruct (ha =? "less")%string; [intros _; eexists; reflexivity |].
  destruct (ha =? "greater")%string; [intros _; eexists; reflexivity |].
  destruct (ha =? "two-sided")%string; [intros _; eexists; reflexivity |].
  discriminate.
Qed.

(** A group too small for a variance is not refused: the variance is [nan]
    and so is every statistic computed from the standard error. *)
Lemma welch_ttest_nan (treat ctrl : list R) (alpha : R) (ha : string) :
  str_in (lower ha) valid_ha_ttest = true ->
  (length treat < 2 \/ length ctrl < 2)%nat ->
  exists r,
    Misc.welch_ttest st treat ctrl alpha ha = Ok r /\
    Misc.t_score r = NaN /\ Misc.t_dof r = NaN /\
    Misc.t_ci_lower r = NaN /\ Misc.t_ci_upper r = NaN.
Proof.
  intros Hha Hsmall. unfold Misc.welch_ttest. fold valid_ha_ttest.
  rewrite Hha. cbn [negb].
  assert (Hse : np_add (np_div (Series_var treat) (Series_count treat))
                       (np_div (Series_var ctrl) (Series_count ctrl)) = NaN).
  { destruct Hsmall as [H | H]; rewrite (Series_var_small _ H); cbn [np_div].
    - reflexivity.
    - apply np_add_nan_r. }
  rewrite Hse. cbn [math_sqrt_np bind]. rewrite np_div_nan_r.
  cbn [np_pow2 np_mul np_div].
  destruct (_ttest_p_valid NaN NaN (lower ha) Hha) as [p Hp].
  rewrite Hp. cbn [bind].
  eexists. split; [reflexivity |]. cbn [Misc.t_score Misc.t_dof
    Misc.t_ci_lower Misc.t_ci_upper Misc.confint fst snd].
  rewrite np_mul_nan_r, np_sub_nan_r, np_add_nan_r. repeat split.
Qed.

(** C6, as the code has it: [welch_ttest] does not check the group sizes.
    With a recognised [ha], a group of fewer than 2 observations raises
    nothing; the table is returned with [nan] for the t-score, the degrees
    of freedom and both interval bounds. *)
Theorem welch_ttest_small_group_returns_nan
  (treat ctrl : list R) (alpha : R) (ha : string) :
  str_in (lower ha) valid_ha_ttest = true ->
  (length treat < 2 \/ length ctrl < 2)%nat ->
  exists r,
    Misc.welch_ttest st treat ctrl alpha ha = Ok r /\
    Misc.t_score r = NaN /\ Misc.t_dof r = NaN /\
    Misc.t_ci_lower r = NaN /\ Misc.t_ci_upper r = NaN.
Proof.
  intros Hha Hsmall. apply welch_ttest_nan; assumption.
Qed.

End WelchTTest.

(** ** [Proportion.strat_confint] *)

Lemma np_sum_fin {A : Type} (f : A -> R) (l : list A) :
  np_sum (map (fun a => Fin (f a)) l) = Fin (Rsum (map f l)).
Proof.
  unfold np_sum, Rsum. induction l as [| a l IH]; [reflexivity |].
  cbn [map fold_right]. rewrite IH. reflexivity.
Qed.

Lemma broadcast_map {A : Type} (f : num -> num -> num) (u v : A -> num)
  (l : list A) :
  broadcast f (map u l) (map v l) = Ok (map (fun a => f (u a) (v a)) l).
Proof.
  unfold broadcast. rewrite !length_map, Nat.eqb_refl. f_equal.
  unfold map2. induction l as [| a l IH]; [reflexivity |].
  cbn [map combine fst snd]. rewrite IH. reflexivity.
Qed.

Lemma Rsum_nonneg (l : list R) : Forall (fun x => 0 <= x) l -> 0 <= Rsum l.
Proof.
  induction 1 as [| x l Hx _ IH]; cbn [Rsum fold_right]; [lra |].
  unfold Rsum in IH. lra.
Qed.

Lemma Rsum_ge_member (l : list R) (a : R) :
  Forall (fun x => 0 <= x) l -> In a l -> a <= Rsum l.
Proof.
  induction 1 as [| x l Hx Hl IH]; intros Hin; [contradiction |].
  cbn [Rsum fold_right]. fold (Rsum l). pose proof (Rsum_nonneg l Hl).
  destruct Hin as [-> | Hin]; [lra |]. specialize (IH Hin). lra.
Qed.

Lemma np_add_zero_r (x : num) : np_add x (Fin 0) = x.
Proof.
  destruct x; cbn [np_add]; [f_equal; ring | reflexivity | reflexivity].
Qed.

Lemma np_mul_fin (a b : R) : np_mul (Fin a) (Fin b) = Fin (a * b).
Proof. reflexivity. Qed.

Lemma np_sub_fin (a b : R) : np_sub (Fin a) (Fin b) = Fin (a - b).
Proof. reflexivity. Qed.

(** *** 64-bit integer arithmetic without overflow *)

Lemma wrap64_small (z : Z) : int64 z -> wrap64 z = z.
Proof.
  unfold int64, int64_min, int64_max, wrap64. intros Hz.
  rewrite Z.mod_small by lia. lia.
Qed.

Lemma wrap64_add_wrap64 (x y : Z) : wrap64 (x + wrap64 y) = wrap64 (x + y).
Proof.
  unfold wrap64. f_equal.
  replace (x + ((y + 2 ^ 63) mod 2 ^ 64 - 2 ^ 63) + 2 ^ 63)%Z
    with (x + (y + 2 ^ 63) mod 2 ^ 64)%Z by lia.
  rewrite Zplus_mod_idemp_r. f_equal. lia.
Qed.

Lemma i64_sum_wraps_total (xs : list Z) : i64_sum xs = wrap64 (Zsum xs).
Proof.
  induction xs as [| x xs IH]; [reflexivity |].
  cbn [i64_sum Zsum fold_right]. fold (i64_sum xs) (Zsum xs).
  unfold i64_add. rewrite IH. apply wrap64_add_wrap64.
Qed.

Lemma Zsum_nonneg (xs : list Z) :
  Forall (fun x => (0 <= x)%Z) xs -> (0 <= Zsum xs)%Z.
Proof.
  induction 1 as [| x xs Hx _ IH]; cbn [Zsum fold_right]; [lia |].
  fold (Zsum xs). lia.
Qed.

Lemma i64_sum_exact (xs : list Z) :
  Forall (fun x => (0 <= x)%Z) xs -> (Zsum xs <= int64_max)%Z ->
  i64_sum xs = Zsum xs.
Proof.
  intros Hnn Hmax. rewrite i64_sum_wraps_total. apply wrap64_small.
  pose proof (Zsum_nonneg xs Hnn). unfold int64, int64_min. lia.
Qed.

Lemma i64_pow2_exact (x : Z) : (x * x <= int64_max)%Z -> i64_pow2 x = (x * x)%Z.
Proof.
  intros Hx. unfold i64_pow2. apply wrap64_small.
  unfold int64, int64_min. pose proof (Z.square_nonneg x). lia.
Qed.

Lemma IZR_Zsum (xs : list Z) : IZR (Zsum xs) = Rsum (map IZR xs).
Proof.
  induction xs as [| x xs IH]; [reflexivity |].
  cbn [Zsum Rsum map fold_right]. fold (Zsum xs) (Rsum (map IZR xs)).
  rewrite plus_IZR, IH. reflexivity.
Qed.

(** *** The strata of three arrays *)

Lemma strata_of_arrays (props : list R) (sample_sizes strat_sizes : list Z) :
  length props = length sample_sizes ->
  length sample_sizes = length strat_sizes ->
  map s_prop (strata_of props sample_sizes strat_sizes) = props /\
  map s_sample (strata_of props sample_sizes strat_sizes) = sample_sizes /\
  map s_size (strata_of props sample_sizes strat_sizes) = strat_sizes.
Proof.
  revert sample_sizes strat_sizes.
  induction props as [| p props IH]; intros [| n ns] [| N Ns] H1 H2;
    try discriminate; [repeat split |].
  cbn [length] in H1, H2.
  destruct (IH ns Ns) as [Ep [En EN]]; [congruence | congruence |].
  cbn [strata_of map s_prop s_sample s_size]. rewrite Ep, En, EN.
  repeat split.
Qed.

Lemma stratum_ok_real (s : stratum) :
  stratum_ok s -> 2 <= IZR (s_sample s) <= IZR (s_size s).
Proof.
  intros [H2 HN]. split; [apply IZR_le in H2; exact H2 | apply IZR_le; exact HN].
Qed.

Lemma strata_popl_size_pos (ss : list stratum) (s : stratum) :
  Forall stratum_ok ss -> In s ss -> 2 <= strata_popl_size ss.
Proof.
  intros Hok Hin. unfold strata_popl_size.
  assert (Hnn : Forall (fun x => 0 <= x) (map (fun s => IZR (s_size s)) ss)).
  { apply Forall_map. eapply Forall_impl; [| exact Hok].
    intros a Ha. apply stratum_ok_real in Ha. lra. }
  pose proof (Rsum_ge_member _ (IZR (s_size s)) Hnn
                (in_map (fun s => IZR (s_size s)) ss s Hin)).
  rewrite Forall_forall in Hok. pose proof (stratum_ok_real s (Hok s Hin)). lra.
Qed.

(** The population size the code computes is the real total when the sizes
    are positive and their total fits. *)
Lemma popl_size_exact (ss : list stratum) :
  Forall stratum_ok ss ->
  (Zsum (map s_size ss) <= int64_max)%Z ->
  to_f64 (i64_sum (map s_size ss)) = Fin (strata_popl_size ss).
Proof.
  intros Hok Hmax. rewrite i64_sum_exact; [| | exact Hmax].
  - unfold to_f64, strata_popl_size. rewrite IZR_Zsum, map_map. reflexivity.
  - apply Forall_map. eapply Forall_impl; [| exact Hok].
    intros s [H2 HN]. lia.
Qed.

Lemma weighted_prop_fin (s : stratum) (total : R) :
  total <> 0 ->
  np_mul (np_div (to_f64 (s_size s)) (Fin total)) (Fin (s_prop s))
  = Fin (IZR (s_size s) / total * s_prop s).
Proof.
  intros Ht. unfold to_f64. rewrite np_div_fin by exact Ht. reflexivity.
Qed.

Lemma variance_term_fin (s : stratum) (total : R) :
  stratum_ok s -> (s_size s * s_size s <= int64_max)%Z -> total <> 0 ->
  np_div
    (np_mul
       (np_mul
          (np_mul (to_f64 (i64_pow2 (s_size s)))
                  (np_pow2 (np_div (Fin 1) (Fin total))))
          (np_sub (Fin 1)
                  (np_div (to_f64 (s_sample s)) (to_f64 (s_size s)))))
       (np_mul
          (np_mul
             (np_div (to_f64 (s_sample s)) (to_f64 (i64_sub (s_sample s) 1)))
             (Fin (s_prop s)))
          (np_sub (Fin 1) (Fin (s_prop s)))))
    (to_f64 (s_sample s))
  = Fin (IZR (s_size s) ^ 2 * (1 / total) ^ 2
         * (1 - IZR (s_sample s) / IZR (s_size s))
         * stratum_var s / IZR (s_sample s)).
Proof.
  intros Hok Hsq Ht. pose proof (stratum_ok_real s Hok) as [Hn HN].
  rewrite i64_pow2_exact by exact Hsq.
  assert (Hsub : i64_sub (s_sample s) 1 = (s_sample s - 1)%Z).
  { unfold i64_sub. apply wrap64_small. destruct Hok as [H2 HNz].
    assert (s_size s <= int64_max)%Z by nia.
    unfold int64, int64_min. lia. }
  rewrite Hsub. unfold to_f64, np_pow2, np_sub, stratum_var.
  rewrite mult_IZR, minus_IZR.
  rewrite (np_div_fin 1 total) by exact Ht.
  rewrite (np_div_fin (IZR (s_sample s)) (IZR (s_size s))) by lra.
  cbn [np_neg np_add np_mul].
  rewrite (np_div_fin (IZR (s_sample s)) (IZR (s_sample s) - 1)) by lra.
  cbn [np_mul]. rewrite np_div_fin by lra.
  f_equal. field. repeat split; lra.
Qed.

Lemma variance_terms_fin (ss : list stratum) (total : R) :
  Forall stratum_ok ss ->
  Forall (fun N => (N * N <= int64_max)%Z) (map s_size ss) ->
  (forall s, In s ss -> total <> 0) ->
  map (fun s =>
         np_div
           (np_mul
              (np_mul
                 (np_mul (to_f64 (i64_pow2 (s_size s)))
                         (np_pow2 (np_div (Fin 1) (Fin total))))
                 (np_sub (Fin 1)
                         (np_div (to_f64 (s_sample s)) (to_f64 (s_size s)))))
              (np_mul
                 (np_mul
                    (np_div (to_f64 (s_sample s))
                            (to_f64 (i64_sub (s_sample s) 1)))
                    (Fin (s_prop s)))
                 (np_sub (Fin 1) (Fin (s_prop s)))))
           (to_f64 (s_sample s))) ss
  = map (fun s => Fin (IZR (s_size s) ^ 2 * (1 / total) ^ 2
                       * (1 - IZR (s_sample s) / IZR (s_size s))
                       * stratum_var s / IZR (s_sample s))) ss.
Proof.
  intros Hok Hsq Ht. apply map_ext_in. intros s Hin.
  rewrite Forall_forall in Hok. rewrite Forall_forall in Hsq.
  apply variance_term_fin; [exact (Hok s Hin) | | exact (Ht s Hin)].
  apply Hsq. apply in_map. exact Hin.
Qed.


Section StratConfint.

Variable st : scipy_stats.
Hypothesis Hpos : ppf_upper_positive st.

Lemma strat_confint_eval (ss : list stratum) (alpha z : R) :
  Forall stratum_ok ss ->
  sizes_fit_int64 (map s_size ss) ->
  norm_ppf st (Fin (1 - alpha / 2)) = Fin z ->
  Proportion.strat_confint st
    (map (fun s => Fin (s_prop s)) ss) (map s_sample ss) (map s_size ss) alpha
  = Ok (np_sub (Fin (strata_proportion ss))
               (np_mul (Fin z) (np_sqrt (Fin (strata_variance ss)))),
        np_add (Fin (strata_proportion ss))
               (np_mul (Fin z) (np_sqrt (Fin (strata_variance ss))))).
Proof.
  intros Hok [Hsq Hmax] Hz.
  unfold Proportion.strat_confint, Proportion.strat_proportion.
  rewrite Hz, (popl_size_exact ss Hok Hmax).
  rewrite !map_map.
  repeat (rewrite broadcast_map; cbn [bind]; rewrite ?map_map).
  assert (Htotal : forall s, In s ss -> strata_popl_size ss <> 0).
  { intros s Hin. pose proof (strata_popl_size_pos ss s Hok Hin). lra. }
  rewrite (map_ext_in
             (fun s => np_mul (np_div (to_f64 (s_size s))
                                      (Fin (strata_popl_size ss)))
                              (Fin (s_prop s)))
             (fun s => Fin (IZR (s_size s) / strata_popl_size ss * s_prop s)))
    by (intros s Hin; apply weighted_prop_fin, (Htotal s Hin)).
  rewrite (variance_terms_fin ss _ Hok Hsq Htotal).
  rewrite !np_sum_fin. reflexivity.
Qed.


End StratConfint.

(** * The claims at concrete inputs *)

(** ** Inputs the code accepts or refuses against the specification *)

(** C3 (counterexample): moe = 2 is outside (0,1), yet
    [sample_size(2, 0.5, None, 0.05)] raises nothing and returns 1, for every
    backend whose 97.5% quantile is the normal one; so out-of-range arguments
    are not all refused. *)
Lemma sample_size_accepts_moe_2 :
  ~ in01 2 /\
  (forall st, ppf_975 st ->
              Proportion.sample_size st 2 0.5 None 0.05 = Ok 1%Z) /\
  ~ (forall st moe prop popl_size alpha,
        ppf_upper_positive st -> ppf_975 st ->
        ~ in01 moe \/ ~ in01 prop \/ ~ in01 alpha ->
        InvalidArgument (Proportion.sample_size st moe prop popl_size alpha)).
Proof.
  assert (Heval : forall st, ppf_975 st ->
                    Proportion.sample_size st 2 0.5 None 0.05 = Ok 1%Z).
  { intros st H975. apply sample_size_at_95; [exact H975 | lra |].
    intros z Hz. nra. }
  split; [unfold in01; lra |]. split; [exact Heval |].
  intros Hclaim.
  assert (Hout : ~ in01 2 \/ ~ in01 0.5 \/ ~ in01 0.05)
    by (left; unfold in01; lra).
  destruct (Hclaim uniform_stats 2 0.5 None 0.05
              uniform_ppf_upper_positive uniform_ppf_975 Hout) as [msg Hmsg].
  rewrite (Heval uniform_stats uniform_ppf_975) in Hmsg. discriminate.
Qed.

(** C5 (counterexample): the margins 0.8 < 0.9 need the same sample,
    [sample_size(0.8, 0.5, None, 0.05) = sample_size(0.9, 0.5, None, 0.05) = 2],
    so the sample size does not strictly decrease. *)
Lemma sample_size_not_strictly_decreasing :
  (0 < 0.8 /\ 0.8 < 0.9 /\ 0.9 < 1) /\
  (forall st, ppf_975 st ->
              Proportion.sample_size st 0.8 0.5 None 0.05 = Ok 2%Z /\
              Proportion.sample_size st 0.9 0.5 None 0.05 = Ok 2%Z) /\
  ~ (forall st moe1 moe2 prop alpha,
        ppf_upper_positive st -> ppf_975 st ->
        0 < moe1 -> moe1 < moe2 -> moe2 < 1 -> in01 prop -> in01 alpha ->
        exists n1 n2,
          Proportion.sample_size st moe1 prop None alpha = Ok n1 /\
          Proportion.sample_size st moe2 prop None alpha = Ok n2 /\
          (n2 < n1)%Z).
Proof.
  assert (Heval : forall st, ppf_975 st ->
            Proportion.sample_size st 0.8 0.5 None 0.05 = Ok 2%Z /\
            Proportion.sample_size st 0.9 0.5 None 0.05 = Ok 2%Z).
  { intros st H975. split.
    - apply sample_size_at_95; [exact H975 | lra |]. intros z Hz. nra.
    - apply sample_size_at_95; [exact H975 | lra |]. intros z Hz. nra. }
  split; [lra |]. split; [exact Heval |].
  intros Hclaim.
  destruct (Hclaim uniform_stats 0.8 0.9 0.5 0.05
              uniform_ppf_upper_positive uniform_ppf_975)
    as [n1 [n2 [H1 [H2 Hlt]]]]; unfold in01; try lra.
  destruct (Heval uniform_stats uniform_ppf_975) as [E1 E2].
  rewrite E1 in H1. rewrite E2 in H2.
  injection H1 as <-. injection H2 as <-. lia.
Qed.

(** C6 (counterexample): a treatment group of one observation is not
    refused; [welch_ttest([1], [1, 2], 0.05, 'two-sided')] returns its table,
    with [nan] for the t-score. *)
Lemma welch_ttest_single_observation_returns :
  (forall st, exists r,
      Misc.welch_ttest st [1] [1; 2] 0.05 "two-sided" = Ok r /\
      Misc.t_score r = NaN) /\
  ~ (forall st treat ctrl alpha ha,
        (length treat < 2 \/ length ctrl < 2)%nat ->
        InvalidArgument (Misc.welch_ttest st treat ctrl alpha ha)).
Proof.
  assert (Heval : forall st, exists r,
             Misc.welch_ttest st [1] [1; 2] 0.05 "two-sided" = Ok r /\
             Misc.t_score r = NaN).
  { intros st.
    destruct (welch_ttest_nan st [1] [1; 2] 0.05 "two-sided" eq_refl)
      as [r [Hr [Ht _]]]; [left; cbn; lia |].
    exists r. split; assumption. }
  split; [exact Heval |].
  intros Hclaim.
  destruct (Hclaim uniform_stats [1] [1; 2] 0.05 "two-sided"%string)
    as [msg Hmsg]; [left; cbn; lia |].
  destruct (Heval uniform_stats) as [r [Hr _]].
  rewrite Hr in Hmsg. discriminate.
Qed.

(** C7 (counterexample): [f_score(0, 0, 1)] returns no value, [nan] or other:
    the division raises [ZeroDivisionError]. *)
Lemma f_score_zero_zero_raises :
  Misc.f_score 0 0 1 = Raise ZeroDivisionError /\
  ~ returns (Misc.f_score 0 0 1).
Proof.
  assert (E : Misc.f_score 0 0 1 = Raise ZeroDivisionError).
  { unfold Misc.f_score. replace (1 ^ 2 * 0 + 0) with 0 by ring.
    apply py_div_zero. }
  split; [exact E |]. intros [v Hv]. rewrite E in Hv. discriminate.
Qed.

Lemma ztest_2prop_zero_count (st : scipy_stats) (n alpha : R) :
  n <> 0 ->
  Misc.ztest_2prop st 0 n 0 n alpha "two-sided" = Raise ZeroDivisionError.
Proof.
  intros Hn. assert (Hnn : n + n <> 0) by (intros H; apply Hn; lra).
  unfold Misc.ztest_2prop.
  change (lower "two-sided") with "two-sided"%string.
  change (negb (str_in "two-sided"
                  ["two-sided"; "t"; "greater"; "g"; "less"; "l"]%string))
    with false. cbv iota.
  rewrite !py_div_ok by assumption. cbn [bind].
  replace ((0 + 0) / (n + n) * (1 - (0 + 0) / (n + n)) * (1 / n + 1 / n))
    with 0 by (unfold Rdiv; ring).
  rewrite math_sqrt_ok by lra. cbn [bind]. rewrite sqrt_0.
  rewrite py_div_zero. reflexivity.
Qed.

(** C8 (counterexample): with a count of 0 in both groups,
    [ztest_2prop(0, 10, 0, 10)] has a zero standard error and raises
    [ZeroDivisionError] at the z-statistic; no statistic is returned. *)
Lemma ztest_2prop_zero_count_raises :
  (forall st,
      Misc.ztest_2prop st 0 10 0 10 0.05 "two-sided"
      = Raise ZeroDivisionError) /\
  ~ (forall st x n,
        sf_at_zero st ->
        exists r,
          Misc.ztest_2prop st x n x n 0.05 "two-sided" = Ok r /\
          Misc.z_score r = 0 /\ Misc.z_p_value r = Fin 1 /\
          Misc.z_lift r = 0).
Proof.
  assert (Heval : forall st,
             Misc.ztest_2prop st 0 10 0 10 0.05 "two-sided"
             = Raise ZeroDivisionError).
  { intros st. apply ztest_2prop_zero_count. lra. }
  split; [exact Heval |].
  intros Hclaim.
  destruct (Hclaim uniform_stats 0 10 uniform_sf_at_zero) as [r [Hr _]].
  rewrite Heval in Hr. discriminate.
Qed.


(** ** The theorems at inputs that meet their hypotheses *)

(** C2 at moe = 0.05, prop = 0.5, alpha = 0.05, on the model backend. *)
Lemma sample_size_infinite_population_witness :
  (exists z,
      norm_ppf uniform_stats (Fin (1 - 0.05 / 2)) = Fin z /\
      Proportion.sample_size uniform_stats 0.05 0.5 None 0.05
      = Ok (Rceil (z ^ 2 * 0.5 * (1 - 0.5) / 0.05 ^ 2)))
  /\ Proportion.sample_size uniform_stats 0.05 0.5 None 0.05 = Ok 385%Z.
Proof.
  apply (sample_size_infinite_population uniform_stats
           uniform_ppf_upper_positive 0.05 0.5 0.05 uniform_ppf_975);
    unfold in01; lra.
Defined.

(** C3 at moe = 0.05, prop = 0.5, a population of 1000 and alpha = 0.05. *)
Lemma sample_size_unchecked_positive_ceiling_witness :
  (forall moe' prop' alpha' z,
      norm_ppf uniform_stats (Fin (1 - alpha' / 2)) = Fin z -> moe' <> 0 ->
      Proportion.sample_size uniform_stats moe' prop' None alpha'
      = Ok (Rceil (z ^ 2 * prop' * (1 - prop') / moe' ^ 2)))
  /\ (forall moe' prop' popl_size' alpha' e,
        Proportion.sample_size uniform_stats moe' prop' popl_size' alpha'
        = Raise e ->
        e = OverflowError \/
        e = ValueError "cannot convert float NaN to integer")
  /\ exists z n,
    norm_ppf uniform_stats (Fin (1 - 0.05 / 2)) = Fin z /\
    Proportion.sample_size uniform_stats 0.05 0.5 (Some 1000%Z) 0.05 = Ok n /\
    (1 <= n)%Z /\
    sample_size_quotient z 0.05 0.5 (Some 1000%Z) <= IZR n
    < sample_size_quotient z 0.05 0.5 (Some 1000%Z) + 1.
Proof.
  apply (sample_size_unchecked_positive_ceiling uniform_stats
           uniform_ppf_upper_positive 0.05 0.5 (Some 1000%Z) 0.05);
    unfold in01; try lra. lia.
Defined.

(** C5 at the margins 0.05 < 0.1, prop = 0.5 and alpha = 0.05. *)
Lemma sample_size_antitone_in_moe_witness :
  exists z n1 n2,
    norm_ppf uniform_stats (Fin (1 - 0.05 / 2)) = Fin z /\
    Proportion.sample_size uniform_stats 0.05 0.5 None 0.05 = Ok n1 /\
    Proportion.sample_size uniform_stats 0.1 0.5 None 0.05 = Ok n2 /\
    (n2 <= n1)%Z /\
    sample_size_quotient z 0.1 0.5 None < sample_size_quotient z 0.05 0.5 None.
Proof.
  apply (sample_size_antitone_in_moe uniform_stats
           uniform_ppf_upper_positive 0.05 0.1 0.5 0.05);
    unfold in01; lra.
Defined.

(** C9 at prop = 0.6, a sample of 100 and alpha = 0.05. *)
Lemma confint_brackets_prop_witness :
  exists z,
    norm_ppf uniform_stats (Fin (1 - 0.05 / 2)) = Fin z /\
    Proportion.confint uniform_stats 0.6 100 0.05
    = Ok (Fin (0.6 - z * sqrt (0.6 * (1 - 0.6) / IZR 100)),
          Fin (0.6 + z * sqrt (0.6 * (1 - 0.6) / IZR 100))) /\
    0.6 - z * sqrt (0.6 * (1 - 0.6) / IZR 100) < 0.6 /\
    0.6 < 0.6 + z * sqrt (0.6 * (1 - 0.6) / IZR 100).
Proof.
  apply (confint_brackets_prop uniform_stats uniform_ppf_upper_positive
           0.6 100 0.05); unfold in01; try lra. lia.
Defined.

(** C8 at 50 events out of 100 in both groups. *)
Lemma ztest_2prop_identical_groups_witness :
  exists r,
    Misc.ztest_2prop uniform_stats 50 100 50 100 0.05 "two-sided" = Ok r /\
    Misc.z_score r = 0 /\
    Misc.z_p_value r = Fin 1 /\
    Misc.z_lift r = 0.
Proof.
  apply (ztest_2prop_identical_groups uniform_stats uniform_sf_at_zero
           50 100 0.05); lra.
Defined.

(** C6 at a treatment group of one observation. *)
Lemma welch_ttest_small_group_returns_nan_witness :
  exists r,
    Misc.welch_ttest uniform_stats [1] [1; 2] 0.05 "two-sided" = Ok r /\
    Misc.t_score r = NaN /\ Misc.t_dof r = NaN /\
    Misc.t_ci_lower r = NaN /\ Misc.t_ci_upper r = NaN.
Proof.
  apply (welch_ttest_small_group_returns_nan uniform_stats
           [1] [1; 2] 0.05 "two-sided" eq_refl).
  left. cbn. lia.
Defined.


(** * Further properties of the code *)

(** ** The alternative-hypothesis token *)

Lemma ascii_lower_idempotent (c : ascii) :
  ascii_lower (ascii_lower c) = ascii_lower c.
Proof.
  destruct c as [[] [] [] [] [] [] [] []]; reflexivity.
Qed.

Lemma lower_idempotent (s : string) : lower (lower s) = lower s.
Proof.
  induction s as [| c s IH]; [reflexivity |].
  cbn [lower]. rewrite ascii_lower_idempotent, IH. reflexivity.
Qed.

Section HaToken.

Variable st : scipy_stats.

(** X1: a token that is none of the six, after lowering, makes
    [ztest_2prop] raise its [ValueError] before any arithmetic: the numbers,
    zero sample sizes included, play no part. *)
Theorem ztest_2prop_unknown_ha_value_error
  (x_treat n_treat x_ctrl n_ctrl alpha : R) (ha : string) :
  str_in (lower ha) valid_ha_ztest = false ->
  Misc.ztest_2prop st x_treat n_treat x_ctrl n_ctrl alpha ha
  = Raise (ValueError "ha must be one of valid_ha").
Proof.
  intros Hha. unfold Misc.ztest_2prop. fold valid_ha_ztest. rewrite Hha.
  reflexivity.
Qed.

(** X2: [welch_ttest] accepts the three full words only: any other token,
    the single-letter aliases of [ztest_2prop] among them, raises
    [ValueError] whatever the samples. *)
Theorem welch_ttest_unknown_ha_value_error
  (treat ctrl : list R) (alpha : R) (ha : string) :
  str_in (lower ha) valid_ha_ttest = false
  \/ In (lower ha) ["t"; "g"; "l"]%string ->
  Misc.welch_ttest st treat ctrl alpha ha
  = Raise (ValueError "ha must be one of valid_ha").
Proof.
  intros Hha.
  assert (H : str_in (lower ha) valid_ha_ttest = false).
  { destruct Hha as [H | [E | [E | [E | []]]]];
      [exact H | rewrite <- E .. ]; reflexivity. }
  unfold Misc.welch_ttest. fold valid_ha_ttest. rewrite H. reflexivity.
Qed.

(** X3: both tests read [ha] through [lower] only, and [lower] is
    idempotent: a token and its lower-case form give the same outcome,
    value or exception. *)
Theorem tests_ignore_case_of_ha
  (x_treat n_treat x_ctrl n_ctrl alpha : R) (treat ctrl : list R)
  (ha : string) :
  Misc.ztest_2prop st x_treat n_treat x_ctrl n_ctrl alpha ha
  = Misc.ztest_2prop st x_treat n_treat x_ctrl n_ctrl alpha (lower ha)
  /\ Misc.welch_ttest st treat ctrl alpha ha
     = Misc.welch_ttest st treat ctrl alpha (lower ha).
Proof.
  unfold Misc.ztest_2prop, Misc.welch_ttest.
  rewrite lower_idempotent. split; reflexivity.
Qed.

End HaToken.

(** ** [Misc.f_score] on positive arguments *)

(** X4: for positive precision and recall the score is returned and lies
    between the smaller and the larger of the two, whatever beta; two equal
    arguments give that very value. *)
Theorem f_score_between_precision_and_recall (precision recall beta : R) :
  0 < precision -> 0 < recall ->
  exists f,
    Misc.f_score precision recall beta = Ok f /\
    Rmin precision recall <= f <= Rmax precision recall /\
    (precision = recall -> f = precision).
Proof.
  intros Hp Hr.
  assert (Hb : 0 <= beta ^ 2) by apply pow2_ge_0.
  assert (Hbp : 0 <= beta ^ 2 * precision) by (apply Rmult_le_pos; lra).
  assert (Hd : 0 < beta ^ 2 * precision + recall) by lra.
  exists ((1 + beta ^ 2) * (precision * recall)
          / (beta ^ 2 * precision + recall)).
  split; [apply py_div_ok; lra |].
  set (d := beta ^ 2 * precision + recall) in *.
  assert (Hlo : forall m, m <= precision -> m <= recall -> 0 <= m ->
                  m <= (1 + beta ^ 2) * (precision * recall) / d).
  { intros m Hmp Hmr Hm.
    apply Rmult_le_reg_r with d; [exact Hd |].
    unfold Rdiv. rewrite Rmult_assoc, Rinv_l, Rmult_1_r by lra.
    unfold d.
    assert (H1 : m * (beta ^ 2 * precision) <= recall * (beta ^ 2 * precision))
      by (apply Rmult_le_compat_r; lra).
    assert (H2 : m * recall <= precision * recall)
      by (apply Rmult_le_compat_r; lra).
    lra. }
  assert (Hhi : forall m, precision <= m -> recall <= m ->
                  (1 + beta ^ 2) * (precision * recall) / d <= m).
  { intros m Hmp Hmr.
    apply Rmult_le_reg_r with d; [exact Hd |].
    unfold Rdiv. rewrite Rmult_assoc, Rinv_l, Rmult_1_r by lra.
    unfold d.
    assert (H1 : recall * (beta ^ 2 * precision) <= m * (beta ^ 2 * precision))
      by (apply Rmult_le_compat_r; lra).
    assert (H2 : precision * recall <= m * recall)
      by (apply Rmult_le_compat_r; lra).
    lra. }
  split; [split |].
  - apply Hlo; [apply Rmin_l | apply Rmin_r |].
    unfold Rmin. destruct (Rle_dec precision recall); lra.
  - apply Hhi; [apply Rmax_l | apply Rmax_r].
  - intros E. apply Rle_antisym.
    + apply Hhi; lra.
    + apply Hlo; lra.
Qed.

(** X5: with beta = 1 the score is symmetric: exchanging precision and
    recall gives the same outcome, the same [ZeroDivisionError] included. *)
Theorem f_score_beta_1_symmetric (precision recall : R) :
  Misc.f_score precision recall 1 = Misc.f_score recall precision 1.
Proof.
  unfold Misc.f_score.
  replace (1 ^ 2 * recall + precision) with (1 ^ 2 * precision + recall)
    by ring.
  replace (recall * precision) with (precision * recall) by ring.
  reflexivity.
Qed.

(** ** [Proportion.confint] and its copy *)

Section ConfintMore.

Variable st : scipy_stats.

(** X6: [pop_prop_confint p n cl] is [confint p n (1 - cl)] on every input,
    values and exceptions alike. *)
Theorem pop_prop_confint_is_confint (p : R) (n : Z) (cl : R) :
  Misc.pop_prop_confint st p n cl = Proportion.confint st p n (1 - cl).
Proof.
  unfold Misc.pop_prop_confint, Proportion.confint. reflexivity.
Qed.

(** The interval whenever the variance is defined and not negative. *)
Lemma confint_eval (prop : R) (n : Z) (alpha z : R) :
  norm_ppf st (Fin (1 - alpha / 2)) = Fin z ->
  n <> 0%Z ->
  0 <= prop * (1 - prop) / IZR n ->
  Proportion.confint st prop n alpha
  = Ok (Fin (prop - z * sqrt (prop * (1 - prop) / IZR n)),
        Fin (prop + z * sqrt (prop * (1 - prop) / IZR n))).
Proof.
  intros Hz Hn Hvar. unfold Proportion.confint. rewrite Hz.
  rewrite py_div_ok by (apply not_0_IZR; exact Hn). cbn [bind].
  rewrite math_sqrt_ok by exact Hvar. reflexivity.
Qed.

(** X7: a sample size that is not positive is refused only by the
    arithmetic: 0 raises [ZeroDivisionError] for every prop and alpha, and a
    negative size with prop in (0,1) raises the [ValueError] of [math.sqrt]
    on the negative variance. *)
Theorem confint_nonpositive_sample_size (prop : R) (n : Z) (alpha : R) :
  Proportion.confint st prop 0 alpha = Raise ZeroDivisionError
  /\ ((n < 0)%Z -> in01 prop ->
      Proportion.confint st prop n alpha
      = Raise (ValueError "math domain error")).
Proof.
  unfold Proportion.confint. split.
  - rewrite py_div_zero. reflexivity.
  - intros Hn [Hp0 Hp1]. apply IZR_lt in Hn.
    rewrite py_div_ok by lra. cbn [bind]. unfold math_sqrt.
    destruct (Rlt_dec (prop * (1 - prop) / IZR n) 0) as [_ | Hge];
      [reflexivity |].
    exfalso. apply Hge.
    assert (Hc : 0 < prop * (1 - prop)) by (apply Rmult_lt_0_compat; lra).
    assert (Hi : / IZR n < 0) by (apply Rinv_lt_0_compat; exact Hn).
    unfold Rdiv. nra.
Qed.

Hypothesis Hpos : ppf_upper_positive st.

(** X8: a larger sample gives a strictly narrower interval: for prop and
    alpha in (0,1) and sample sizes 0 < n1 < n2, the interval of n2 lies
    strictly inside the interval of n1. *)
Theorem confint_narrows_with_sample_size (prop : R) (n1 n2 : Z) (alpha : R) :
  in01 prop -> in01 alpha -> (0 < n1)%Z -> (n1 < n2)%Z ->
  exists l1 u1 l2 u2,
    Proportion.confint st prop n1 alpha = Ok (Fin l1, Fin u1) /\
    Proportion.confint st prop n2 alpha = Ok (Fin l2, Fin u2) /\
    l1 < l2 /\ l2 < u2 /\ u2 < u1.
Proof.
  intros [Hp0 Hp1] [Ha0 Ha1] Hn1 Hn12.
  destruct (Hpos (1 - alpha / 2)) as [z [Hz Hz0]]; [lra |].
  assert (Hr1 : 0 < IZR n1) by (apply IZR_lt in Hn1; exact Hn1).
  assert (Hr12 : IZR n1 < IZR n2) by (apply IZR_lt; exact Hn12).
  assert (Hc : 0 < prop * (1 - prop)) by (apply Rmult_lt_0_compat; lra).
  assert (Hv1 : 0 < prop * (1 - prop) / IZR n1)
    by (apply Rdiv_lt_0_compat; lra).
  assert (Hv2 : 0 < prop * (1 - prop) / IZR n2)
    by (apply Rdiv_lt_0_compat; lra).
  assert (Hv21 : prop * (1 - prop) / IZR n2 < prop * (1 - prop) / IZR n1).
  { unfold Rdiv. apply Rmult_lt_compat_l; [exact Hc |].
    apply Rinv_lt_contravar; [apply Rmult_lt_0_compat; lra | exact Hr12]. }
  assert (Hs : sqrt (prop * (1 - prop) / IZR n2)
               < sqrt (prop * (1 - prop) / IZR n1))
    by (apply sqrt_lt_1; lra).
  assert (Hs2 : 0 < sqrt (prop * (1 - prop) / IZR n2))
    by (apply sqrt_lt_R0; exact Hv2).
  do 4 eexists. split; [| split].
  - apply (confint_eval prop n1 alpha z Hz); [lia | lra].
  - apply (confint_eval prop n2 alpha z Hz); [lia | lra].
  - nra.
Qed.

(** X9: a proportion of 0 or 1 has no variance: for a non-zero sample size
    and alpha in (0,1) the interval collapses to the proportion itself. *)
Theorem confint_degenerate_at_0_and_1 (prop : R) (n : Z) (alpha : R) :
  prop = 0 \/ prop = 1 -> n <> 0%Z -> in01 alpha ->
  Proportion.confint st prop n alpha = Ok (Fin prop, Fin prop).
Proof.
  intros Hp Hn [Ha0 Ha1].
  destruct (Hpos (1 - alpha / 2)) as [z [Hz _]]; [lra |].
  assert (Hv : prop * (1 - prop) / IZR n = 0).
  { unfold Rdiv. destruct Hp as [-> | ->]; ring. }
  rewrite (confint_eval prop n alpha z Hz Hn) by (rewrite Hv; lra).
  rewrite Hv, sqrt_0. do 3 f_equal; ring.
Qed.

End ConfintMore.

(** ** [Proportion.sample_size] at its edges *)

Section SampleSizeMore.

Variable st : scipy_stats.
Hypothesis Hpos : ppf_upper_positive st.

Lemma correction_term_nonneg (z moe : R) (N : Z) :
  0 < z -> (1 <= N)%Z -> 0 <= (IZR N - 1) * moe ^ 2 / z ^ 2.
Proof.
  intros Hz HN. apply IZR_le in HN.
  apply Rmult_le_pos; [apply Rmult_le_pos; [lra | apply pow2_ge_0] |].
  left. apply Rinv_0_lt_compat, pow_lt. exact Hz.
Qed.

(** X10: a margin of 0 is not refused as an argument: for prop and alpha in
    (0,1) and no population size the quotient is [inf] and [math.ceil]
    raises [OverflowError]. *)
Theorem sample_size_zero_margin_overflows (prop alpha : R) :
  in01 prop -> in01 alpha ->
  Proportion.sample_size st 0 prop None alpha = Raise OverflowError.
Proof.
  intros [Hp0 Hp1] Halpha.
  destruct (critical_value_positive st Hpos alpha Halpha) as [z [Hz Hz0]].
  unfold Proportion.sample_size. rewrite Hz. cbn [np_pow2 np_mul].
  unfold np_div.
  destruct (Req_dec_T (0 ^ 2) 0) as [_ | Hne]; [| exfalso; apply Hne; ring].
  destruct (Req_dec_T (z * z * prop * (1 - prop)) 0) as [E | _];
    [| reflexivity].
  exfalso.
  assert (0 < z * z * prop * (1 - prop)); [| lra].
  apply Rmult_lt_0_compat; [apply Rmult_lt_0_compat |]; try lra.
  apply Rmult_lt_0_compat; lra.
Qed.

(** X11: with the finite population correction the sample never exceeds the
    population: for moe, prop and alpha in (0,1) and a population of
    N >= 1, [1 <= sample_size(moe, prop, N, alpha) <= N]. *)
Theorem sample_size_at_most_population (moe prop : R) (N : Z) (alpha : R) :
  in01 moe -> in01 prop -> in01 alpha -> (1 <= N)%Z ->
  exists n,
    Proportion.sample_size st moe prop (Some N) alpha = Ok n /\
    (1 <= n <= N)%Z.
Proof.
  intros Hmoe Hprop Halpha HN.
  destruct (critical_value_positive st Hpos alpha Halpha) as [z [Hz Hz0]].
  pose proof (denominator_finite_positive z moe prop N Hz0 Hprop HN) as Hden.
  exists (Rceil (sample_size_quotient z moe prop (Some N))).
  split; [apply sample_size_finite; [exact Hz | lra | lia | lra] |].
  split; [apply Rceil_pos, quotient_finite_positive; assumption |].
  assert (HNN : Rceil (IZR N) = N) by (apply Rceil_unique; lra).
  apply Z.le_trans with (Rceil (IZR N)); [| rewrite HNN; lia].
  apply Rceil_le. cbn [sample_size_quotient].
  pose proof (correction_term_nonneg z moe N Hz0 HN) as Hk.
  destruct Hprop as [Hp0 Hp1]. apply IZR_le in HN.
  assert (Hc : 0 < prop * (1 - prop)) by (apply Rmult_lt_0_compat; lra).
  apply Rmult_le_reg_r with ((IZR N - 1) * moe ^ 2 / z ^ 2 + prop * (1 - prop));
    [exact Hden |].
  unfold Rdiv at 1. rewrite Rmult_assoc, Rinv_l, Rmult_1_r by lra.
  nra.
Qed.

(** X12: the default prop = 0.5 is the most conservative choice: for moe,
    prop and alpha in (0,1), with no population size or one of at least 1,
    no prop needs a larger sample than 0.5 does. *)
Theorem sample_size_largest_at_half
  (moe prop : R) (popl_size : option Z) (alpha : R) :
  in01 moe -> in01 prop -> in01 alpha ->
  match popl_size with Some N => (1 <= N)%Z | None => True end ->
  exists n n_half,
    Proportion.sample_size st moe prop popl_size alpha = Ok n /\
    Proportion.sample_size st moe 0.5 popl_size alpha = Ok n_half /\
    (n <= n_half)%Z.
Proof.
  intros Hmoe Hprop Halpha HN.
  destruct (critical_value_positive st Hpos alpha Halpha) as [z [Hz Hz0]].
  assert (Hhalf : in01 0.5) by (unfold in01; lra).
  assert (Hm : moe <> 0) by (destruct Hmoe; lra).
  exists (Rceil (sample_size_quotient z moe prop popl_size)),
         (Rceil (sample_size_quotient z moe 0.5 popl_size)).
  assert (Hc : prop * (1 - prop) <= 0.5 * (1 - 0.5)).
  { pose proof (Rle_0_sqr (prop - 0.5)) as Hsq. unfold Rsqr in Hsq. nra. }
  assert (Hc0 : 0 < prop * (1 - prop))
    by (destruct Hprop; apply Rmult_lt_0_compat; lra).
  destruct popl_size as [N |].
  - pose proof (denominator_finite_positive z moe prop N Hz0 Hprop HN) as Hd.
    pose proof (denominator_finite_positive z moe 0.5 N Hz0 Hhalf HN) as Hd'.
    split; [apply sample_size_finite; [exact Hz | lra | lia | lra] |].
    split; [apply sample_size_finite; [exact Hz | lra | lia | lra] |].
    apply Rceil_le. cbn [sample_size_quotient].
    set (k := (IZR N - 1) * moe ^ 2 / z ^ 2) in *.
    assert (Hk : 0 <= k) by (apply correction_term_nonneg; assumption).
    clearbody k.
    apply IZR_le in HN.
    apply Rmult_le_reg_r with (k + prop * (1 - prop)); [exact Hd |].
    unfold Rdiv at 1. rewrite Rmult_assoc, Rinv_l, Rmult_1_r by lra.
    apply Rmult_le_reg_r with (k + 0.5 * (1 - 0.5)); [exact Hd' |].
    replace (IZR N * 0.5 * (1 - 0.5) / (k + 0.5 * (1 - 0.5))
             * (k + prop * (1 - prop)) * (k + 0.5 * (1 - 0.5)))
      with (IZR N * 0.5 * (1 - 0.5) * (k + prop * (1 - prop)))
      by (field; lra).
    assert (Hh : 0 <= IZR N * k * (0.5 * (1 - 0.5) - prop * (1 - prop))).
    { apply Rmult_le_pos; [apply Rmult_le_pos; [lra | exact Hk] |].
      apply Rge_le, Rge_minus, Rle_ge. exact Hc. }
    lra.
  - split; [apply sample_size_infinite; assumption |].
    split; [apply sample_size_infinite; assumption |].
    apply Rceil_le. cbn [sample_size_quotient].
    assert (Hz2 : 0 < z ^ 2) by (apply pow_lt; exact Hz0).
    assert (Hm2 : 0 < / moe ^ 2).
    { apply Rinv_0_lt_compat.
      assert (H := pow2_ge_0 moe). assert (H' := pow_nonzero moe 2 Hm). lra. }
    unfold Rdiv. apply Rmult_le_compat_r; [lra |].
    rewrite !Rmult_assoc. apply Rmult_le_compat_l; lra.
Qed.

End SampleSizeMore.

(** ** [Proportion.strat_proportion] *)

Lemma np_add_comm (x y : num) : np_add x y = np_add y x.
Proof.
  destruct x as [a | s |], y as [b | s' |]; cbn [np_add]; try reflexivity.
  - f_equal. ring.
  - destruct s, s'; reflexivity.
Qed.

Lemma np_add_assoc (x y z : num) :
  np_add x (np_add y z) = np_add (np_add x y) z.
Proof.
  destruct x as [a | [] |], y as [b | [] |], z as [c | [] |];
    cbn; try reflexivity.
  f_equal. ring.
Qed.

Lemma np_sum_permutation (xs ys : list num) :
  Permutation xs ys -> np_sum xs = np_sum ys.
Proof.
  unfold np_sum. induction 1 as [| x l l' _ IH | x y l | l l' l'' _ IH1 _ IH2];
    cbn [fold_right].
  - reflexivity.
  - rewrite IH. reflexivity.
  - rewrite !np_add_assoc, (np_add_comm y x). reflexivity.
  - rewrite IH1. exact IH2.
Qed.

Lemma Zsum_permutation (xs ys : list Z) :
  Permutation xs ys -> Zsum xs = Zsum ys.
Proof.
  unfold Zsum. induction 1 as [| x l l' _ IH | x y l | l l' l'' _ IH1 _ IH2];
    cbn [fold_right]; lia.
Qed.

Lemma i64_sum_permutation (xs ys : list Z) :
  Permutation xs ys -> i64_sum xs = i64_sum ys.
Proof.
  intros H. rewrite !i64_sum_wraps_total, (Zsum_permutation xs ys H).
  reflexivity.
Qed.

(** X13: a single stratum of non-zero size has weight 1, and the weighted
    proportion is the stratum's own; a single stratum of size 0 has weight
    0/0 and the answer is [nan], not an exception. *)
Theorem strat_proportion_single_stratum (p : R) (N : Z) :
  (int64 N -> N <> 0%Z ->
   Proportion.strat_proportion [Fin p] [N] = Ok (Fin p))
  /\ Proportion.strat_proportion [Fin p] [0%Z] = Ok NaN.
Proof.
  unfold Proportion.strat_proportion, broadcast, map2, np_sum.
  cbn [map fold_right length Nat.eqb combine fst snd bind i64_sum]. split.
  - intros Hrange HN. unfold i64_add. rewrite Z.add_0_r.
    rewrite wrap64_small by exact Hrange. unfold to_f64.
    rewrite np_div_fin by (apply not_0_IZR; exact HN).
    cbn [np_mul np_add]. do 2 f_equal. field. apply not_0_IZR. exact HN.
  - change (i64_add 0 0) with 0%Z. unfold to_f64, np_div.
    destruct (Req_dec_T 0 0) as [_ | H]; [| now elim H]. reflexivity.
Qed.

(** X14: the weighted proportion does not depend on the order of the
    strata: permuting the paired arrays gives the same outcome, for any
    proportions and any sizes. *)
Theorem strat_proportion_permutation (l l' : list (num * Z)) :
  Permutation l l' ->
  Proportion.strat_proportion (map fst l) (map snd l)
  = Proportion.strat_proportion (map fst l') (map snd l').
Proof.
  intros Hperm. unfold Proportion.strat_proportion.
  rewrite (i64_sum_permutation (map snd l) (map snd l'))
    by (apply Permutation_map; exact Hperm).
  rewrite !map_map, !broadcast_map. cbn [bind]. f_equal.
  apply np_sum_permutation, Permutation_map. exact Hperm.
Qed.

Lemma Rsum_positive (l : list R) :
  l <> [] -> Forall (fun x => 0 < x) l -> 0 < Rsum l.
Proof.
  intros Hne Hall. destruct Hall as [| x l Hx Hl]; [congruence |].
  cbn [Rsum fold_right]. fold (Rsum l).
  assert (0 <= Rsum l); [| lra].
  apply Rsum_nonneg. eapply Forall_impl; [| exact Hl]. intros a Ha. lra.
Qed.

Lemma weighted_sum_bounds (l : list (R * Z)) (total a b : R) :
  0 < total ->
  Forall (fun ps => a <= fst ps <= b /\ (0 < snd ps)%Z) l ->
  a * (Rsum (map (fun ps => IZR (snd ps)) l) / total)
  <= Rsum (map (fun ps => IZR (snd ps) / total * fst ps) l)
  <= b * (Rsum (map (fun ps => IZR (snd ps)) l) / total).
Proof.
  intros Ht. induction 1 as [| [p N] l [[Hpa Hpb] HN] _ IH];
    cbn [map Rsum fold_right fst snd] in *.
  - unfold Rdiv. rewrite Rmult_0_l, !Rmult_0_r. lra.
  - fold (Rsum (map (fun ps : R * Z => IZR (snd ps)) l)) in *.
    fold (Rsum (map (fun ps : R * Z => IZR (snd ps) / total * fst ps) l)) in *.
    apply IZR_lt in HN.
    assert (Hw : 0 < IZR N / total) by (apply Rdiv_lt_0_compat; lra).
    assert (Hsplit :
              (IZR N + Rsum (map (fun ps : R * Z => IZR (snd ps)) l)) / total
              = IZR N / total
                + Rsum (map (fun ps : R * Z => IZR (snd ps)) l) / total)
      by (field; lra).
    rewrite Hsplit.
    assert (H1 : a * (IZR N / total) <= IZR N / total * p) by nra.
    assert (H2 : IZR N / total * p <= b * (IZR N / total)) by nra.
    lra.
Qed.

(** X15: with sizes that are all positive and a total that fits in [int64]
    the weights are positive and sum to 1: the weighted proportion of a
    non-empty stratification lies between any bounds that hold for every
    stratum, so proportions in [0,1] give a proportion in [0,1]. *)
Theorem strat_proportion_within_bounds (l : list (R * Z)) (a b : R) :
  l <> [] ->
  Forall (fun ps => a <= fst ps <= b /\ (0 < snd ps)%Z) l ->
  (Zsum (map snd l) <= int64_max)%Z ->
  exists p,
    Proportion.strat_proportion (np_array (map fst l)) (map snd l)
    = Ok (Fin p) /\
    a <= p <= b.
Proof.
  intros Hne Hall Hmax.
  set (total := Rsum (map (fun ps : R * Z => IZR (snd ps)) l)).
  assert (Ht : 0 < total).
  { apply Rsum_positive; [destruct l; [congruence | discriminate] |].
    apply Forall_map. eapply Forall_impl; [| exact Hall].
    intros ps [_ H]. apply IZR_lt in H. exact H. }
  assert (Hsum : to_f64 (i64_sum (map snd l)) = Fin total).
  { rewrite i64_sum_exact; [| | exact Hmax].
    - unfold to_f64, total. rewrite IZR_Zsum, map_map. reflexivity.
    - apply Forall_map. eapply Forall_impl; [| exact Hall].
      intros ps [_ H]. lia. }
  exists (Rsum (map (fun ps => IZR (snd ps) / total * fst ps) l)).
  split.
  - unfold Proportion.strat_proportion, np_array. rewrite Hsum, !map_map.
    rewrite broadcast_map. cbn [bind].
    rewrite (map_ext (fun ps : R * Z =>
                        np_mul (np_div (to_f64 (snd ps)) (Fin total))
                               (Fin (fst ps)))
                     (fun ps => Fin (IZR (snd ps) / total * fst ps)))
      by (intros ps; unfold to_f64; rewrite np_div_fin by lra; reflexivity).
    rewrite np_sum_fin. reflexivity.
  - pose proof (weighted_sum_bounds l total a b Ht Hall) as H.
    fold total in H. rewrite Rdiv_diag in H by lra. lra.
Qed.

(** X16: arrays of different lengths, neither of them of length 1, cannot be
    broadcast: [strat_proportion] raises numpy's [ValueError], and so does
    [strat_confint], which calls it before anything else can fail. *)
Theorem strat_length_mismatch_raises
  (st : scipy_stats) (props : list num) (sample_sizes strat_sizes : list Z)
  (alpha : R) :
  length props <> length strat_sizes ->
  length props <> 1%nat -> length strat_sizes <> 1%nat ->
  Proportion.strat_proportion props strat_sizes
  = Raise (ValueError "operands could not be broadcast together")
  /\ Proportion.strat_confint st props sample_sizes strat_sizes alpha
     = Raise (ValueError "operands could not be broadcast together").
Proof.
  intros Hlen Hp Hs.
  assert (E : Proportion.strat_proportion props strat_sizes
              = Raise (ValueError "operands could not be broadcast together")).
  { unfold Proportion.strat_proportion, broadcast. rewrite length_map.
    destruct (Nat.eqb_spec (length strat_sizes) (length props)) as [E | _];
      [congruence |].
    destruct strat_sizes as [| s [| s' ss]], props as [| p [| p' ps]];
      cbn [map length] in *; try congruence; reflexivity. }
  split; [exact E |].
  unfold Proportion.strat_confint. rewrite E. reflexivity.
Qed.

(** ** [Proportion.strat_confint] at its edges *)

Lemma strata_of_census (props : list R) (sizes : list Z) :
  length props = length sizes ->
  Forall (fun N => (2 <= N)%Z) sizes ->
  Forall (fun s => stratum_ok s /\ s_sample s = s_size s)
         (strata_of props sizes sizes).
Proof.
  revert sizes. induction props as [| p props IH]; intros [| N sizes] Hlen Hall;
    try discriminate; cbn [strata_of]; [constructor |].
  inversion Hall as [| ? ? HN Hrest]; subst.
  constructor.
  - unfold stratum_ok. cbn [s_sample s_size]. split; [lia | reflexivity].
  - apply IH; [cbn [length] in Hlen; congruence | exact Hrest].
Qed.

Lemma strata_variance_census (ss : list stratum) :
  Forall (fun s => stratum_ok s /\ s_sample s = s_size s) ss ->
  strata_variance ss = 0.
Proof.
  intros Hall. unfold strata_variance.
  rewrite (map_ext_in _ (fun _ => 0)).
  - induction ss as [| s ss IH]; [reflexivity |].
    cbn [map Rsum fold_right]. fold (Rsum (map (fun _ : stratum => 0) ss)).
    rewrite IH; [lra | inversion Hall; assumption].
  - intros s Hin. rewrite Forall_forall in Hall.
    destruct (Hall s Hin) as [Hok E].
    destruct (stratum_ok_real s Hok) as [Hn HN]. rewrite E.
    rewrite Rdiv_diag by (rewrite <- E; lra). unfold Rdiv. ring.
Qed.

Lemma sgn_nonneg (a : R) : 0 <= a -> sgn a = false.
Proof. intros Ha. unfold sgn. destruct (Rlt_dec a 0); [lra | reflexivity]. Qed.

Lemma np_div_pos_zero (a b : R) :
  0 < a -> b = 0 -> np_div (Fin a) (Fin b) = Inf false.
Proof.
  intros Ha ->. unfold np_div.
  destruct (Req_dec_T 0 0) as [_ | H]; [| now elim H].
  destruct (Req_dec_T a 0); [lra |]. rewrite sgn_nonneg by lra. reflexivity.
Qed.

Lemma np_mul_inf_pos (s : bool) (a : R) :
  0 < a -> np_mul (Inf s) (Fin a) = Inf s.
Proof.
  intros Ha. cbn [np_mul]. destruct (Req_dec_T a 0); [lra |].
  rewrite sgn_nonneg by lra. destruct s; reflexivity.
Qed.

Lemma np_mul_pos_inf (a : R) (s : bool) :
  0 < a -> np_mul (Fin a) (Inf s) = Inf s.
Proof.
  intros Ha. cbn [np_mul]. destruct (Req_dec_T a 0); [lra |].
  rewrite sgn_nonneg by lra. destruct s; reflexivity.
Qed.

Lemma np_div_inf_pos (s : bool) (a : R) :
  0 < a -> np_div (Inf s) (Fin a) = Inf s.
Proof.
  intros Ha. cbn [np_div]. rewrite sgn_nonneg by lra. destruct s; reflexivity.
Qed.

Section StratConfintMore.

Variable st : scipy_stats.
Hypothesis Hpos : ppf_upper_positive st.

(** X17: when every stratum is sampled in full (sample size equal to stratum
    size, at least 2) and the [int64] arithmetic on the sizes does not
    overflow, the correction [1 - sample_size/strat_size] removes all
    variance: the interval collapses to the weighted proportion. *)
Theorem strat_confint_census_is_exact
  (props : list R) (sizes : list Z) (alpha : R) :
  length props = length sizes ->
  Forall (fun N => (2 <= N)%Z) sizes ->
  sizes_fit_int64 sizes ->
  in01 alpha ->
  Proportion.strat_confint st (np_array props) sizes sizes alpha
  = Ok (Fin (strata_proportion (strata_of props sizes sizes)),
        Fin (strata_proportion (strata_of props sizes sizes))).
Proof.
  intros Hlen Hall Hfit [Ha0 Ha1].
  destruct (Hpos (1 - alpha / 2)) as [z [Hz _]]; [lra |].
  destruct (strata_of_arrays props sizes sizes Hlen eq_refl) as [Ep [En EN]].
  pose proof (strata_of_census props sizes Hlen Hall) as Hcensus.
  set (ss := strata_of props sizes sizes) in *.
  assert (Hok : Forall stratum_ok ss).
  { eapply Forall_impl; [| exact Hcensus]. intros s [H _]. exact H. }
  rewrite <- EN in Hfit.
  assert (Heval := strat_confint_eval st ss alpha z Hok Hfit Hz).
  rewrite <- (map_map s_prop Fin), Ep, En, EN in Heval.
  fold (np_array props) in Heval.
  rewrite Heval, (strata_variance_census ss Hcensus).
  unfold np_sqrt. destruct (Rlt_dec 0 0); [lra |].
  rewrite sqrt_0. cbn [np_mul np_sub np_add np_neg]. do 3 f_equal; ring.
Qed.

(** X18: a stratum with a single observation is not refused: its variance
    factor [n/(n-1)] is 1/0, and for a lone stratum of size N > 1, with
    [N^2] within [int64], and a proportion in (0,1) the interval returned is
    [(-inf, +inf)]. *)
Theorem strat_confint_single_observation (p : R) (N : Z) (alpha : R) :
  in01 p -> (1 < N)%Z -> (N * N <= int64_max)%Z -> in01 alpha ->
  Proportion.strat_confint st [Fin p] [1%Z] [N] alpha
  = Ok (Inf true, Inf false).
Proof.
  intros [Hp0 Hp1] HN Hsq [Ha0 Ha1].
  destruct (Hpos (1 - alpha / 2)) as [z [Hz Hz0]]; [lra |].
  assert (HNr : 1 < IZR N) by (apply IZR_lt in HN; exact HN).
  assert (Hrange : int64 N).
  { unfold int64, int64_min. split; [lia | nia]. }
  unfold Proportion.strat_confint, Proportion.strat_proportion.
  rewrite Hz. unfold broadcast, map2, np_sum.
  cbn [map fold_right length Nat.eqb combine fst snd bind i64_sum].
  unfold i64_add. rewrite Z.add_0_r, (wrap64_small N Hrange).
  rewrite (i64_pow2_exact N Hsq).
  change (i64_sub 1 1) with 0%Z. unfold to_f64. rewrite mult_IZR.
  rewrite !np_add_zero_r.
  rewrite (np_div_fin (IZR N) (IZR N)), (np_div_fin 1 (IZR N)) by lra.
  rewrite !np_sub_fin.
  rewrite (np_div_pos_zero 1 0) by lra.
  rewrite (np_mul_inf_pos false p) by lra.
  rewrite (np_mul_inf_pos false (1 - p)) by lra.
  unfold np_pow2. rewrite !np_mul_fin.
  assert (Hw : 0 < IZR N * IZR N * (1 / IZR N * (1 / IZR N))
                   * (1 - 1 / IZR N)).
  { assert (0 < 1 / IZR N) by (apply Rdiv_lt_0_compat; lra).
    assert (1 / IZR N < 1).
    { apply Rmult_lt_reg_r with (IZR N); [lra |]. unfold Rdiv.
      rewrite Rmult_assoc, Rinv_l by lra. lra. }
    repeat apply Rmult_lt_0_compat; lra. }
  rewrite np_mul_pos_inf by exact Hw.
  rewrite np_div_inf_pos by lra.
  cbn [np_sqrt]. rewrite np_mul_pos_inf by exact Hz0.
  reflexivity.
Qed.

End StratConfintMore.

(** ** [Misc.welch_ttest] on samples of every size *)

Lemma Rsum_repeat (c : R) (n : nat) : Rsum (repeat c n) = INR n * c.
Proof.
  induction n as [| n IH]; [cbn; ring |].
  cbn [repeat Rsum fold_right]. fold (Rsum (repeat c n)).
  rewrite IH, S_INR. ring.
Qed.

Lemma INR_ge_2 (n : nat) : (2 <= n)%nat -> 2 <= INR n.
Proof. intros H. apply le_INR in H. cbn in H. lra. Qed.

(** The sample variance is [nan] or a number that is not negative. *)
Lemma Series_var_cases (xs : list R) :
  ((length xs < 2)%nat /\ Series_var xs = NaN)
  \/ ((2 <= length xs)%nat /\ exists v, Series_var xs = Fin v /\ 0 <= v).
Proof.
  unfold Series_var. destruct (Nat.leb_spec (length xs) 1) as [H | H].
  - left. split; [lia | reflexivity].
  - right. split; [lia |]. eexists. split; [reflexivity |].
    pose proof (INR_ge_2 (length xs) ltac:(lia)) as Hn.
    apply Rmult_le_pos; [| left; apply Rinv_0_lt_compat; lra].
    apply Rsum_nonneg, Forall_map, Forall_forall. intros x _.
    apply Rle_0_sqr.
Qed.

Lemma var_over_count_cases (xs : list R) :
  np_div (Series_var xs) (Series_count xs) = NaN
  \/ exists q, np_div (Series_var xs) (Series_count xs) = Fin q /\ 0 <= q.
Proof.
  destruct (Series_var_cases xs) as [[_ E] | [Hlen [v [E Hv]]]]; rewrite E.
  - left. reflexivity.
  - right. pose proof (INR_ge_2 _ Hlen) as Hn. unfold Series_count.
    rewrite np_div_fin by lra. eexists. split; [reflexivity |].
    apply Rmult_le_pos; [exact Hv | left; apply Rinv_0_lt_compat; lra].
Qed.

Section WelchMore.

Variable st : scipy_stats.

(** X19: with a recognised [ha], [welch_ttest] raises on no samples at all:
    empty, single or constant groups give a table, because the quantity
    under [math.sqrt] is [nan] or not negative and every later division is
    numpy's. *)
Theorem welch_ttest_never_raises
  (treat ctrl : list R) (alpha : R) (ha : string) :
  str_in (lower ha) valid_ha_ttest = true ->
  returns (Misc.welch_ttest st treat ctrl alpha ha).
Proof.
  intros Hha. unfold Misc.welch_ttest. fold valid_ha_ttest.
  rewrite Hha. cbn [negb].
  assert (Hse : returns
            (math_sqrt_np
               (np_add (np_div (Series_var treat) (Series_count treat))
                       (np_div (Series_var ctrl) (Series_count ctrl))))).
  { destruct (var_over_count_cases treat) as [E1 | [q1 [E1 H1]]];
      destruct (var_over_count_cases ctrl) as [E2 | [q2 [E2 H2]]];
      rewrite E1, E2; cbn [np_add math_sqrt_np];
      try (eexists; reflexivity).
    rewrite math_sqrt_ok by lra. eexists. reflexivity. }
  destruct Hse as [se Hse]. rewrite Hse. cbn [bind].
  match goal with
  | |- context [Misc._ttest_p st ?t ?d ?h] =>
      destruct (_ttest_p_valid st t d h Hha) as [pv Hp]; rewrite Hp
  end.
  cbn [bind]. eexists. reflexivity.
Qed.

Lemma Series_constant (c : R) (k : nat) :
  Series_count (repeat c (S (S k))) = Fin (INR (S (S k)))
  /\ Series_mean (repeat c (S (S k))) = Fin c
  /\ Series_var (repeat c (S (S k))) = Fin 0.
Proof.
  pose proof (INR_ge_2 (S (S k)) ltac:(lia)) as Hn.
  assert (Hm : Rsum (repeat c (S (S k))) / INR (S (S k)) = c).
  { rewrite Rsum_repeat. field. lra. }
  split; [| split].
  - unfold Series_count. rewrite repeat_length. reflexivity.
  - change (Series_mean (repeat c (S (S k))))
      with (Fin (Rsum (repeat c (S (S k)))
                 / INR (length (repeat c (S (S k)))))).
    rewrite repeat_length, Hm. reflexivity.
  - unfold Series_var. rewrite repeat_length.
    change (S (S k) <=? 1)%nat with false. cbv iota.
    rewrite Hm, map_repeat, Rsum_repeat. f_equal.
    unfold Rdiv. ring.
Qed.

(** X20: two groups without variance (each a constant repeated at least
    twice) raise nothing: the standard error is 0, the t-score is the
    difference of the constants over 0, that is [nan] for equal constants
    and a signed [inf] otherwise, and the degrees of freedom are [nan]. *)
Theorem welch_ttest_constant_groups
  (a b alpha : R) (k m : nat) (ha : string) :
  str_in (lower ha) valid_ha_ttest = true ->
  exists r,
    Misc.welch_ttest st (repeat a (S (S k))) (repeat b (S (S m))) alpha ha
    = Ok r /\
    Misc.t_diff r = Fin (a - b) /\
    Misc.t_dof r = NaN /\
    (a = b -> Misc.t_score r = NaN) /\
    (a < b -> Misc.t_score r = Inf true) /\
    (b < a -> Misc.t_score r = Inf false).
Proof.
  intros Hha. unfold Misc.welch_ttest. fold valid_ha_ttest.
  rewrite Hha. cbn [negb].
  destruct (Series_constant a k) as [Ca [Ma Va]].
  destruct (Series_constant b m) as [Cb [Mb Vb]].
  rewrite Ca, Cb, Ma, Mb, Va, Vb.
  pose proof (INR_ge_2 (S (S k)) ltac:(lia)) as Hk.
  pose proof (INR_ge_2 (S (S m)) ltac:(lia)) as Hm.
  rewrite !np_sub_fin.
  rewrite (np_div_fin 0 (INR (S (S k)))), (np_div_fin 0 (INR (S (S m))))
    by lra.
  rewrite !Rdiv_0_l. unfold np_pow2. rewrite !np_mul_fin.
  rewrite (np_div_fin (0 * 0) (INR (S (S k)) - 1)) by lra.
  rewrite (np_div_fin (0 * 0) (INR (S (S m)) - 1)) by lra.
  cbn [np_add math_sqrt_np].
  rewrite math_sqrt_ok by lra. cbn [bind].
  replace (0 + 0) with 0 by ring. rewrite sqrt_0.
  match goal with
  | |- context [Misc._ttest_p st ?t ?d ?h] =>
      destruct (_ttest_p_valid st t d h Hha) as [pv Hp]; rewrite Hp
  end.
  cbn [bind]. eexists. split; [reflexivity |].
  cbn [Misc.t_diff Misc.t_dof Misc.t_score].
  split; [reflexivity |]. split; [| split; [| split]].
  - rewrite np_mul_fin. unfold np_div.
    destruct (Req_dec_T (0 * 0 / (INR (S (S k)) - 1)
                         + 0 * 0 / (INR (S (S m)) - 1)) 0) as [_ | H].
    + destruct (Req_dec_T (0 * 0) 0) as [_ | H]; [reflexivity |].
      exfalso. apply H. ring.
    + exfalso. apply H. unfold Rdiv. ring.
  - intros ->. unfold np_div.
    destruct (Req_dec_T 0 0) as [_ | H]; [| now elim H].
    destruct (Req_dec_T (b - b) 0) as [_ | H]; [reflexivity |].
    exfalso. apply H. ring.
  - intros Hab. unfold np_div.
    destruct (Req_dec_T 0 0) as [_ | H]; [| now elim H].
    destruct (Req_dec_T (a - b) 0); [lra |].
    unfold sgn. destruct (Rlt_dec (a - b) 0); [reflexivity | lra].
  - intros Hba. unfold np_div.
    destruct (Req_dec_T 0 0) as [_ | H]; [| now elim H].
    destruct (Req_dec_T (a - b) 0); [lra |].
    unfold sgn. destruct (Rlt_dec (a - b) 0); [lra | reflexivity].
Qed.

(** X21: the same sample as treatment and as control, with a positive
    variance and a non-zero mean, gives a t-score, a difference and a lift
    of exactly 0. *)
Theorem welch_ttest_identical_groups
  (xs : list R) (m v alpha : R) (ha : string) :
  str_in (lower ha) valid_ha_ttest = true ->
  Series_mean xs = Fin m -> m <> 0 ->
  Series_var xs = Fin v -> 0 < v ->
  exists r,
    Misc.welch_ttest st xs xs alpha ha = Ok r /\
    Misc.t_score r = Fin 0 /\
    Misc.t_diff r = Fin 0 /\
    Misc.t_lift r = Fin 0.
Proof.
  intros Hha Hmean Hm Hvar Hv.
  destruct (Series_var_cases xs) as [[_ E] | [Hlen _]];
    [rewrite E in Hvar; discriminate |].
  pose proof (INR_ge_2 _ Hlen) as Hn.
  unfold Misc.welch_ttest. fold valid_ha_ttest. rewrite Hha. cbn [negb].
  rewrite Hmean, Hvar. unfold Series_count.
  rewrite !np_sub_fin, (np_div_fin v), (np_div_fin m) by lra.
  cbn [np_add math_sqrt_np].
  assert (Hq : 0 < v / INR (length xs)) by (apply Rdiv_lt_0_compat; lra).
  rewrite math_sqrt_ok by lra. cbn [bind].
  assert (Hs : 0 < sqrt (v / INR (length xs) + v / INR (length xs)))
    by (apply sqrt_lt_R0; lra).
  rewrite (np_div_fin (m - m)) by lra.
  match goal with
  | |- context [Misc._ttest_p st ?t ?d ?h] =>
      destruct (_ttest_p_valid st t d h Hha) as [pv Hp]; rewrite Hp
  end.
  cbn [bind]. eexists. split; [reflexivity |].
  cbn [Misc.t_score Misc.t_diff Misc.t_lift]. rewrite np_sub_fin.
  split; [| split]; f_equal.
  - unfold Rdiv. ring.
  - ring.
  - field. exact Hm.
Qed.

End WelchMore.

(** ** [Misc.ztest_2prop] on valid counts *)

Section ZTestMore.

Variable st : scipy_stats.


(** The pooled variance of counts that leave the pooled proportion strictly
    between 0 and 1. *)
Lemma pooled_variance_positive (x_treat n_treat x_ctrl n_ctrl : R) :
  0 < n_treat -> 0 < n_ctrl ->
  0 < x_treat + x_ctrl -> x_treat + x_ctrl < n_treat + n_ctrl ->
  0 < (x_treat + x_ctrl) / (n_treat + n_ctrl)
      * (1 - (x_treat + x_ctrl) / (n_treat + n_ctrl))
      * (1 / n_treat + 1 / n_ctrl).
Proof.
  intros Ht Hc Hx Hxn.
  assert (Hp : 0 < (x_treat + x_ctrl) / (n_treat + n_ctrl))
    by (apply Rdiv_lt_0_compat; lra).
  assert (Hp1 : (x_treat + x_ctrl) / (n_treat + n_ctrl) < 1).
  { apply Rmult_lt_reg_r with (n_treat + n_ctrl); [lra |]. unfold Rdiv.
    rewrite Rmult_assoc, Rinv_l by lra. lra. }
  assert (H1 : 0 < 1 / n_treat) by (apply Rdiv_lt_0_compat; lra).
  assert (H2 : 0 < 1 / n_ctrl) by (apply Rdiv_lt_0_compat; lra).
  apply Rmult_lt_0_compat; [apply Rmult_lt_0_compat |]; lra.
Qed.

(** The whole table, when the arithmetic raises nothing and [_ztest_p]
    knows the token. *)
Lemma ztest_2prop_table
  (x_treat n_treat x_ctrl n_ctrl alpha : R) (ha : string) (pv : num) :
  let diff := x_treat / n_treat - x_ctrl / n_ctrl in
  let se := sqrt ((x_treat + x_ctrl) / (n_treat + n_ctrl)
                  * (1 - (x_treat + x_ctrl) / (n_treat + n_ctrl))
                  * (1 / n_treat + 1 / n_ctrl)) in
  let z_critical :=
    norm_ppf st
      (Fin (1 - alpha
                / (1 + int_of_bool
                         (negb (str_in (lower ha)
                                  ["greater"; "less"]%string))))) in
  In (lower ha) valid_ha_ttest ->
  0 < n_treat -> 0 < n_ctrl -> 0 < x_ctrl ->
  0 < x_treat + x_ctrl -> x_treat + x_ctrl < n_treat + n_ctrl ->
  Misc._ztest_p st (diff / se) (lower ha) = Ok pv ->
  Misc.ztest_2prop st x_treat n_treat x_ctrl n_ctrl alpha ha
  = Ok {| Misc.z_control := x_ctrl / n_ctrl;
          Misc.z_treatment := x_treat / n_treat;
          Misc.z_score := diff / se;
          Misc.z_p_value := pv;
          Misc.z_lift := x_treat / n_treat / (x_ctrl / n_ctrl) - 1;
          Misc.z_diff := diff;
          Misc.z_ci_lower := np_sub (Fin diff) (np_mul z_critical (Fin se));
          Misc.z_ci_upper := np_add (Fin diff) (np_mul z_critical (Fin se)) |}.
Proof.
  intros diff se z_critical Hin Ht Hc Hx Hpos Hlt Hp.
  pose proof (pooled_variance_positive _ _ _ _ Ht Hc Hpos Hlt) as Hv.
  assert (Hha : str_in (lower ha) valid_ha_ztest = true).
  { destruct Hin as [E | [E | [E | []]]]; rewrite <- E; reflexivity. }
  unfold Misc.ztest_2prop. fold valid_ha_ztest. rewrite Hha. cbn [negb].
  rewrite !py_div_ok by lra. cbn [bind].
  rewrite math_sqrt_ok by lra. cbn [bind]. fold se.
  rewrite py_div_ok by (apply Rgt_not_eq, sqrt_lt_R0; exact Hv). cbn [bind].
  fold diff. rewrite Hp. cbn [bind].
  rewrite py_div_ok by (apply Rgt_not_eq, Rdiv_lt_0_compat; lra).
  reflexivity.
Qed.

(** X22: exchanging the two groups negates the z-score and the difference
    and leaves the two-sided p-value unchanged. *)
Theorem ztest_2prop_swap_groups (x_treat n_treat x_ctrl n_ctrl alpha : R) :
  0 < n_treat -> 0 < n_ctrl -> 0 < x_treat -> 0 < x_ctrl ->
  x_treat + x_ctrl < n_treat + n_ctrl ->
  exists r r',
    Misc.ztest_2prop st x_treat n_treat x_ctrl n_ctrl alpha "two-sided"
    = Ok r /\
    Misc.ztest_2prop st x_ctrl n_ctrl x_treat n_treat alpha "two-sided"
    = Ok r' /\
    Misc.z_score r' = - Misc.z_score r /\
    Misc.z_diff r' = - Misc.z_diff r /\
    Misc.z_p_value r' = Misc.z_p_value r.
Proof.
  intros Ht Hc Hxt Hxc Hlt.
  do 2 eexists. split; [| split].
  - apply ztest_2prop_table; try lra; [left; reflexivity | reflexivity].
  - apply ztest_2prop_table; try lra; [left; reflexivity | reflexivity].
  - cbn [Misc.z_score Misc.z_diff Misc.z_p_value].
    replace ((x_ctrl + x_treat) / (n_ctrl + n_treat)
             * (1 - (x_ctrl + x_treat) / (n_ctrl + n_treat))
             * (1 / n_ctrl + 1 / n_treat))
      with ((x_treat + x_ctrl) / (n_treat + n_ctrl)
            * (1 - (x_treat + x_ctrl) / (n_treat + n_ctrl))
            * (1 / n_treat + 1 / n_ctrl))
      by (rewrite (Rplus_comm x_ctrl), (Rplus_comm n_ctrl),
            (Rplus_comm (1 / n_ctrl)); reflexivity).
    set (se := sqrt _).
    assert (Hz : (x_ctrl / n_ctrl - x_treat / n_treat) / se
                 = - ((x_treat / n_treat - x_ctrl / n_ctrl) / se))
      by (unfold Rdiv; ring).
    split; [exact Hz |]. split; [ring |].
    rewrite Hz, Rabs_Ropp. reflexivity.
Qed.

Hypothesis Hpos : ppf_upper_positive st.


End ZTestMore.

(** ** The further properties at inputs that meet their hypotheses *)

(** X1 at the token ['both']. *)
Lemma ztest_2prop_unknown_ha_value_error_witness :
  Misc.ztest_2prop uniform_stats 120 1000 100 1000 0.05 "both"
  = Raise (ValueError "ha must be one of valid_ha").
Proof.
  apply (ztest_2prop_unknown_ha_value_error uniform_stats
           120 1000 100 1000 0.05 "both").
  reflexivity.
Defined.

(** X2 at the alias ['G']. *)
Lemma welch_ttest_unknown_ha_value_error_witness :
  Misc.welch_ttest uniform_stats [1; 2; 3] [2; 3; 5] 0.05 "G"
  = Raise (ValueError "ha must be one of valid_ha").
Proof.
  apply (welch_ttest_unknown_ha_value_error uniform_stats
           [1; 2; 3] [2; 3; 5] 0.05 "G").
  right. right. left. reflexivity.
Defined.

(** X19 at two empty samples. *)
Lemma welch_ttest_never_raises_witness :
  returns (Misc.welch_ttest uniform_stats [] [] 0.05 "Less").
Proof.
  apply (welch_ttest_never_raises uniform_stats [] [] 0.05 "Less").
  reflexivity.
Defined.

(** X20 at the samples [3, 3] and [5, 5, 5]. *)
Lemma welch_ttest_constant_groups_witness :
  exists r,
    Misc.welch_ttest uniform_stats (repeat 3 2) (repeat 5 3) 0.05 "two-sided"
    = Ok r /\
    Misc.t_diff r = Fin (3 - 5) /\
    Misc.t_dof r = NaN /\
    (3 = 5 -> Misc.t_score r = NaN) /\
    (3 < 5 -> Misc.t_score r = Inf true) /\
    (5 < 3 -> Misc.t_score r = Inf false).
Proof.
  apply (welch_ttest_constant_groups uniform_stats 3 5 0.05 0 1 "two-sided").
  reflexivity.
Defined.

(** X21 at the sample [1, 2], of mean 3/2 and variance 1/2. *)
Lemma welch_ttest_identical_groups_witness :
  exists r,
    Misc.welch_ttest uniform_stats [1; 2] [1; 2] 0.05 "two-sided" = Ok r /\
    Misc.t_score r = Fin 0 /\
    Misc.t_diff r = Fin 0 /\
    Misc.t_lift r = Fin 0.
Proof.
  apply (welch_ttest_identical_groups uniform_stats [1; 2] (3 / 2) (1 / 2)
           0.05 "two-sided").
  - reflexivity.
  - cbn. f_equal. lra.
  - lra.
  - unfold Series_var. cbn. f_equal. lra.
  - lra.
Defined.

(** X4 at precision 0.5, recall 0.25 and beta 2. *)
Lemma f_score_between_precision_and_recall_witness :
  exists f,
    Misc.f_score 0.5 0.25 2 = Ok f /\
    Rmin 0.5 0.25 <= f <= Rmax 0.5 0.25 /\
    (0.5 = 0.25 -> f = 0.5).
Proof.
  apply (f_score_between_precision_and_recall 0.5 0.25 2); lra.
Defined.

(** X8 at prop 0.6 and the sample sizes 100 and 400. *)
Lemma confint_narrows_with_sample_size_witness :
  exists l1 u1 l2 u2,
    Proportion.confint uniform_stats 0.6 100 0.05 = Ok (Fin l1, Fin u1) /\
    Proportion.confint uniform_stats 0.6 400 0.05 = Ok (Fin l2, Fin u2) /\
    l1 < l2 /\ l2 < u2 /\ u2 < u1.
Proof.
  apply (confint_narrows_with_sample_size uniform_stats
           uniform_ppf_upper_positive 0.6 100 400 0.05);
    unfold in01; try lra; lia.
Defined.

(** X9 at prop 1 and a sample of 50. *)
Lemma confint_degenerate_at_0_and_1_witness :
  Proportion.confint uniform_stats 1 50 0.05 = Ok (Fin 1, Fin 1).
Proof.
  apply (confint_degenerate_at_0_and_1 uniform_stats
           uniform_ppf_upper_positive 1 50 0.05).
  - right. reflexivity.
  - lia.
  - unfold in01. lra.
Defined.

(** X10 at prop 0.5 and alpha 0.05. *)
Lemma sample_size_zero_margin_overflows_witness :
  Proportion.sample_size uniform_stats 0 0.5 None 0.05 = Raise OverflowError.
Proof.
  apply (sample_size_zero_margin_overflows uniform_stats
           uniform_ppf_upper_positive 0.5 0.05); unfold in01; lra.
Defined.

(** X11 at a population of 50. *)
Lemma sample_size_at_most_population_witness :
  exists n,
    Proportion.sample_size uniform_stats 0.05 0.5 (Some 50%Z) 0.05 = Ok n /\
    (1 <= n <= 50)%Z.
Proof.
  apply (sample_size_at_most_population uniform_stats
           uniform_ppf_upper_positive 0.05 0.5 50 0.05);
    unfold in01; try lra; lia.
Defined.

(** X12 at prop 0.2 and a population of 1000. *)
Lemma sample_size_largest_at_half_witness :
  exists n n_half,
    Proportion.sample_size uniform_stats 0.05 0.2 (Some 1000%Z) 0.05 = Ok n /\
    Proportion.sample_size uniform_stats 0.05 0.5 (Some 1000%Z) 0.05
    = Ok n_half /\
    (n <= n_half)%Z.
Proof.
  apply (sample_size_largest_at_half uniform_stats
           uniform_ppf_upper_positive 0.05 0.2 (Some 1000%Z) 0.05);
    unfold in01; try lra; lia.
Defined.

(** X14 at two strata exchanged. *)
Lemma strat_proportion_permutation_witness :
  Proportion.strat_proportion [Fin 0.5; Fin 0.2] [100; 200]%Z
  = Proportion.strat_proportion [Fin 0.2; Fin 0.5] [200; 100]%Z.
Proof.
  apply (strat_proportion_permutation
           [(Fin 0.5, 100%Z); (Fin 0.2, 200%Z)]
           [(Fin 0.2, 200%Z); (Fin 0.5, 100%Z)]).
  apply perm_swap.
Defined.

(** X15 at two strata with proportions in [0,1]. *)
Lemma strat_proportion_within_bounds_witness :
  exists p,
    Proportion.strat_proportion (np_array [0.5; 0.2]) [100; 200]%Z
    = Ok (Fin p) /\
    0 <= p <= 1.
Proof.
  apply (strat_proportion_within_bounds [(0.5, 100%Z); (0.2, 200%Z)] 0 1).
  - discriminate.
  - constructor; [cbn; split; [lra | lia] |].
    constructor; [cbn; split; [lra | lia] | constructor].
  - cbn. lia.
Defined.

(** X16 at two proportions against three stratum sizes. *)
Lemma strat_length_mismatch_raises_witness :
  Proportion.strat_proportion [Fin 0.5; Fin 0.2] [10; 20; 30]%Z
  = Raise (ValueError "operands could not be broadcast together")
  /\ Proportion.strat_confint uniform_stats [Fin 0.5; Fin 0.2]
       [5; 5; 5]%Z [10; 20; 30]%Z 0.05
     = Raise (ValueError "operands could not be broadcast together").
Proof.
  apply (strat_length_mismatch_raises uniform_stats [Fin 0.5; Fin 0.2]
           [5; 5; 5]%Z [10; 20; 30]%Z 0.05);
    cbn; lia.
Defined.

(** X17 at two strata of 100 and 200 sampled in full. *)
Lemma strat_confint_census_is_exact_witness :
  Proportion.strat_confint uniform_stats (np_array [0.5; 0.2])
    [100; 200]%Z [100; 200]%Z 0.05
  = Ok (Fin (strata_proportion
               (strata_of [0.5; 0.2] [100; 200]%Z [100; 200]%Z)),
        Fin (strata_proportion
               (strata_of [0.5; 0.2] [100; 200]%Z [100; 200]%Z))).
Proof.
  apply (strat_confint_census_is_exact uniform_stats
           uniform_ppf_upper_positive [0.5; 0.2] [100; 200]%Z 0.05).
  - reflexivity.
  - repeat constructor; lia.
  - split; [repeat constructor; cbn; lia | cbn; lia].
  - unfold in01. lra.
Defined.

(** X18 at one observation out of a stratum of 100. *)
Lemma strat_confint_single_observation_witness :
  Proportion.strat_confint uniform_stats [Fin 0.5] [1%Z] [100%Z] 0.05
  = Ok (Inf true, Inf false).
Proof.
  apply (strat_confint_single_observation uniform_stats
           uniform_ppf_upper_positive 0.5 100 0.05);
    unfold in01; try lra; try lia.
  cbn. lia.
Defined.

(** X22 at 120 of 1000 against 100 of 1000. *)
Lemma ztest_2prop_swap_groups_witness :
  exists r r',
    Misc.ztest_2prop uniform_stats 120 1000 100 1000 0.05 "two-sided"
    = Ok r /\
    Misc.ztest_2prop uniform_stats 100 1000 120 1000 0.05 "two-sided"
    = Ok r' /\
    Misc.z_score r' = - Misc.z_score r /\
    Misc.z_diff r' = - Misc.z_diff r /\
    Misc.z_p_value r' = Misc.z_p_value r.
Proof.
  apply (ztest_2prop_swap_groups uniform_stats 120 1000 100 1000 0.05); lra.
Defined.

